(** * rain_radar: event selection

    A shallow embedding of [event_selection.py]: the [Event] class, the
    single-station segmenter [select_events_single_station], the merger
    [merge_overlapping_events] / [merge_two_events], the plotting helper
    [plot_single_events] (only its indexing of the event list), and the
    assembler [select_all_events].  [calibration.py] hands its objective to
    [scipy.optimize.minimize] and is not modelled.

    Numbers.  The Python values are IEEE doubles (numpy.float64 scalars read
    from pandas).  They are modelled as rationals extended with a
    not-a-number element; infinities and signed zeros are not represented.
    The comparisons, [min] and [max] are exact in Python as they are here.
    [statistics.mean] sums exactly and rounds once, and that final rounding
    is not modelled.  The weighted mean of [merge_two_events] is evaluated as
    numpy evaluates it: the result of every multiplication, addition and
    division is rounded to binary64 by [binary64] (round to nearest, ties to
    even), and module [IEEE] evaluates the same expression on the machine's
    binary64 values for comparison.  Every comparison involving NaN is
    false, as in Python. *)

From Stdlib Require Import String List Sorted ZArith QArith Qround Qpower Qabs Bool Arith Lia Lqa.
From Stdlib Require PrimFloat Uint63 FloatOps SpecFloat.
From Equations Require Import Equations.
Import ListNotations.

Close Scope Q_scope.

(* ================================================================== *)
(** ** Floating-point values *)

Inductive float : Type :=
| NaN : float
| Fin : Q -> float.

Definition isnan (x : float) : bool :=
  match x with NaN => true | Fin _ => false end.

(** Python's [<=], [<], [>=], [>], [==], [!=]. *)
Definition fle (x y : float) : bool :=
  match x, y with Fin a, Fin b => Qle_bool a b | _, _ => false end.

Definition flt (x y : float) : bool :=
  match x, y with Fin a, Fin b => negb (Qle_bool b a) | _, _ => false end.

Definition fge (x y : float) : bool := fle y x.
Definition fgt (x y : float) : bool := flt y x.

Definition feq (x y : float) : bool :=
  match x, y with Fin a, Fin b => Qeq_bool a b | _, _ => false end.

Definition fne (x y : float) : bool := negb (feq x y).

Definition fadd (x y : float) : float :=
  match x, y with Fin a, Fin b => Fin (a + b)%Q | _, _ => NaN end.

Definition fmul (x y : float) : float :=
  match x, y with Fin a, Fin b => Fin (a * b)%Q | _, _ => NaN end.

(** The exact quotient, as numpy divides: a zero divisor does not raise,
    [0/0] and [nan/0] are nan.  A non-zero numerator over zero would be an
    infinity, which this model lacks; it is mapped to [NaN] as well.
    [statistics.mean] divides by a positive count.  Python's own [float]
    raises ZeroDivisionError on a zero divisor instead: that concerns lines
    217 and 222 of [merge_two_events] when both averages are plain
    [float('nan')] values (lines 114-116 and 125-127) and the durations sum
    to zero, a case outside this model; the statements about the merged
    statistics below assume durations that do not sum to zero or start from
    events whose statistics were computed from data. *)
Definition fdiv (x y : float) : float :=
  match x, y with
  | Fin a, Fin b => if Qeq_bool b 0%Q then NaN else Fin (a / b)%Q
  | _, _ => NaN
  end.

Definition of_Z (z : Z) : float := Fin (inject_Z z).
Definition of_nat (n : nat) : float := of_Z (Z.of_nat n).

(** Built-in [min(a, b)] and [max(a, b)]: the first argument is kept unless
    the second compares strictly below (above) it. *)
Definition min2 (a b : float) : float := if flt b a then b else a.
Definition max2 (a b : float) : float := if fgt b a then b else a.

(** Built-in [min(xs)] and [max(xs)] on a non-empty list [x :: xs]. *)
Definition min_list (x : float) (xs : list float) : float := fold_left min2 xs x.
Definition max_list (x : float) (xs : list float) : float := fold_left max2 xs x.

(** [statistics.mean]: the exact sum divided by the count; nan as soon as
    one element is nan. *)
Definition sum (xs : list float) : float := fold_left fadd xs (Fin 0%Q).
Definition mean (xs : list float) : float := fdiv (sum xs) (of_nat (length xs)).

Declare Scope pyfloat_scope.
Delimit Scope pyfloat_scope with py.
Notation "x <=? y" := (fle x y) : pyfloat_scope.
Notation "x <? y" := (flt x y) : pyfloat_scope.
Notation "x >=? y" := (fge x y) (at level 70) : pyfloat_scope.
Notation "x =? y" := (feq x y) : pyfloat_scope.
Notation "x + y" := (fadd x y) : pyfloat_scope.
Notation "x * y" := (fmul x y) : pyfloat_scope.
Notation "x / y" := (fdiv x y) : pyfloat_scope.

(* ================================================================== *)
(** ** Rounding to binary64 *)

Definition pow2 (e : Z) : Q := (2 ^ e)%Q.

(** The integer nearest to [q], the even one of two that are equally
    near. *)
Definition round_half_even (q : Q) : Z :=
  let f := Qfloor q in
  match (q - inject_Z f ?= 1 # 2)%Q with
  | Lt => f
  | Gt => (f + 1)%Z
  | Eq => if Z.even f then f else (f + 1)%Z
  end.

(** The integer [l] with [2^l <= q < 2^(l+1)], for [q > 0]. *)
Definition floor_log2 (q : Q) : Z :=
  let l := (Z.log2 (Qnum q) - Z.log2 (Zpos (Qden q)))%Z in
  if Qle_bool (pow2 l) q then l else (l - 1)%Z.

(** Round to nearest, ties to even, with 53 significant bits and the unit
    in the last place no finer than [2^-1074].  A result of magnitude
    [2^1024] or more is an infinity in IEEE arithmetic; it has no
    counterpart here and is mapped to [NaN]. *)
Definition binary64 (q : Q) : float :=
  if Qeq_bool q 0 then Fin 0%Q
  else
    let e := Z.max (-1074) (floor_log2 (Qabs q) - 52) in
    let r := Qred (inject_Z (round_half_even (q / pow2 e)) * pow2 e) in
    if Qle_bool (pow2 1024) (Qabs r) then NaN else Fin r.

Definition round (x : float) : float :=
  match x with NaN => NaN | Fin q => binary64 q end.

Arguments binary64 : simpl never.

(** [x * y], [x + y] and [x / y] on numpy.float64 scalars, and the
    conversion of an [int] operand. *)
Definition mul64 (x y : float) : float := round (x * y)%py.
Definition add64 (x y : float) : float := round (x + y)%py.
Definition div64 (x y : float) : float := round (x / y)%py.
Definition float64_of_int (z : Z) : float := round (of_Z z).

Declare Scope float64_scope.
Delimit Scope float64_scope with f64.
Notation "x + y" := (add64 x y) : float64_scope.
Notation "x * y" := (mul64 x y) : float64_scope.
Notation "x / y" := (div64 x y) : float64_scope.

(* ================================================================== *)
(** ** Exceptions *)

(** The exceptions the modelled code can raise.  [SamplingError] is the
    [Exception] raised by the segmenter when radar and gauge sampling do
    not agree; [LengthError] the one raised by the assembler. *)
Inductive exn : Type :=
| IndexError
| KeyError
| ValueError
| SamplingError (station : string) (start_time end_time : Z)
| LengthError (len_Z len_R : nat).

Inductive result (A : Type) : Type :=
| OK (a : A)
| Raise (e : exn).
Arguments OK {A} a.
Arguments Raise {A} e.

Definition bind {A B} (r : result A) (k : A -> result B) : result B :=
  match r with OK a => k a | Raise e => Raise e end.

Notation "x <- r ;; k" := (bind r (fun x => k))
  (at level 61, r at next level, right associativity).
Notation "' p <- r ;; k" := (bind r (fun x => let p := x in k))
  (at level 61, p pattern, r at next level, right associativity).

Definition from_option {A} (e : exn) (o : option A) : result A :=
  match o with Some a => OK a | None => Raise e end.

(* ================================================================== *)
(** ** Event *)

Inductive event_type : Type := light | moderate | heavy | extreme.

(** Timestamps are seconds on a common clock. *)
Record Event : Type := mkEvent {
  start_time : Z;
  end_time : Z;
  duration : Z;
  stations : list string;
  num_stations : nat;
  reflect_min : float;
  reflect_avg : float;
  reflect_max : float;
  rain_intens_min : float;
  rain_intens_avg : float;
  rain_intens_max : float;
  rain_cum_avg : float;
  type : event_type
}.

(** [Event.__init__]. *)
Definition Event_init (start_time end_time : Z) (stations : list string)
    (reflect_min reflect_avg reflect_max : float)
    (rain_intens_min rain_intens_avg rain_intens_max : float) : Event :=
  let duration := ((end_time - start_time) / 3600)%Z in
  {| start_time := start_time;
     end_time := end_time;
     duration := duration;
     stations := stations;
     num_stations := length stations;
     reflect_min := reflect_min;
     reflect_avg := reflect_avg;
     reflect_max := reflect_max;
     rain_intens_min := rain_intens_min;
     rain_intens_avg := rain_intens_avg;
     rain_intens_max := rain_intens_max;
     rain_cum_avg := (rain_intens_avg * of_Z duration)%py;
     type :=
       if (rain_intens_avg <=? Fin 5%Q)%py then light
       else if (rain_intens_avg <=? Fin 25%Q)%py then moderate
       else if (rain_intens_avg <=? Fin 50%Q)%py then heavy
       else extreme |}.

(** [merge_two_events].  The two averages are computed on numpy.float64
    scalars: each operation rounds, and the division returns nan where
    Python's own [float] would raise ZeroDivisionError (see [fdiv]). *)
Definition merge_two_events (e1 e2 : Event) : Event :=
  let start_time' := Z.min (start_time e1) (start_time e2) in
  let end_time' := Z.max (end_time e1) (end_time e2) in
  let stations' := stations e1 ++ stations e2 in
  let d1 := float64_of_int (duration e1) in
  let d2 := float64_of_int (duration e2) in
  let dsum := float64_of_int (duration e1 + duration e2) in
  let reflect_min' := min2 (reflect_min e1) (reflect_min e2) in
  let reflect_avg' :=
    ((reflect_avg e1 * d1 + reflect_avg e2 * d2) / dsum)%f64 in
  let reflect_max' := max2 (reflect_max e1) (reflect_max e2) in
  let rain_intens_min' := min2 (rain_intens_min e1) (rain_intens_min e2) in
  let rain_intens_avg' :=
    ((rain_intens_avg e1 * d1 + rain_intens_avg e2 * d2) / dsum)%f64 in
  let rain_intens_max' := max2 (rain_intens_max e1) (rain_intens_max e2) in
  Event_init start_time' end_time' stations'
    reflect_min' reflect_avg' reflect_max'
    rain_intens_min' rain_intens_avg' rain_intens_max'.

(** The averaged statistic of [merge_two_events] (lines 217 and 222) and
    the arithmetic mean of two averages, on the machine's binary64 values.
    Integers are converted as Python converts an [int] operand, exactly for
    the small non-negative values used here. *)
Module IEEE.

Definition of_Z (z : Z) : PrimFloat.float := PrimFloat.of_uint63 (Uint63.of_Z z).

(** The double nearest to [num/den]. *)
Definition dec (num den : Z) : PrimFloat.float := PrimFloat.div (of_Z num) (of_Z den).

Definition weighted_mean (avg1 avg2 : PrimFloat.float) (duration1 duration2 : Z)
    : PrimFloat.float :=
  PrimFloat.div
    (PrimFloat.add (PrimFloat.mul avg1 (of_Z duration1))
                   (PrimFloat.mul avg2 (of_Z duration2)))
    (of_Z (duration1 + duration2)).

Definition arith_mean (x y : PrimFloat.float) : PrimFloat.float :=
  PrimFloat.div (PrimFloat.add x y) (of_Z 2).

(** The value of a binary64 number in the model; an infinity has none and
    is mapped to [NaN]. *)
Definition to_float (x : PrimFloat.float) : float :=
  match FloatOps.Prim2SF x with
  | SpecFloat.S754_zero _ => Fin 0%Q
  | SpecFloat.S754_finite s m e =>
      Fin (Qred (inject_Z (if s then Z.neg m else Z.pos m) * pow2 e))
  | _ => NaN
  end.

End IEEE.

(* ================================================================== *)
(** ** Python sequences and pandas tables *)

(** [xs[k]] for an integer [k]: a negative index counts from the end, an
    index outside [-len, len) raises IndexError. *)
Definition getitem {A} (xs : list A) (k : Z) : result A :=
  let n := Z.of_nat (length xs) in
  if (0 <=? k)%Z then from_option IndexError (nth_error xs (Z.to_nat k))
  else if (0 <=? n + k)%Z then from_option IndexError (nth_error xs (Z.to_nat (n + k)))
  else Raise IndexError.

(** numpy's [xs[mask]] for a boolean mask: the mask must be as long as the
    array. *)
Fixpoint bool_index {A} (mask : list bool) (xs : list A) : result (list A) :=
  match mask, xs with
  | [], [] => OK []
  | m :: mask', x :: xs' =>
      rest <- bool_index mask' xs' ;;
      OK (if m then x :: rest else rest)
  | _, _ => Raise IndexError
  end.

(** A table: a time index and named columns aligned with it. *)
Record DataFrame : Type := mkDataFrame {
  index : list Z;
  columns : list (string * list float)
}.

Definition in_range (a b t : Z) : bool := ((a <=? t) && (t <=? b))%Z.

(** [df.loc[a:b]] on a monotonically increasing index: the rows whose label
    lies in the closed range from [a] to [b]. *)
Definition loc_rows {A} (idx : list Z) (a b : Z) (col : list A) : list A :=
  map snd (filter (fun row => in_range a b (fst row)) (combine idx col)).

Definition loc (df : DataFrame) (a b : Z) : DataFrame :=
  {| index := filter (in_range a b) (index df);
     columns := map (fun c => (fst c, loc_rows (index df) a b (snd c))) (columns df) |}.

(** [df[station].values]: KeyError when there is no such column. *)
Fixpoint lookup_column (cols : list (string * list float)) (station : string)
    : result (list float) :=
  match cols with
  | [] => Raise KeyError
  | (name, col) :: cols' =>
      if (name =? station)%string then OK col else lookup_column cols' station
  end.

Definition column_values (df : DataFrame) (station : string) : result (list float) :=
  lookup_column (columns df) station.

(** [min], [statistics.mean] and [max] of a list, nan for the empty list
    (lines 113-120 and 124-131). *)
Definition stats (xs : list float) : float * float * float :=
  match xs with
  | [] => (NaN, NaN, NaN)
  | x :: rest => (min_list x rest, mean xs, max_list x rest)
  end.

(* ================================================================== *)
(** ** select_events_single_station *)

(** The three accumulators [events], [Z] and [R]. *)
Definition acc : Type := (list Event * list float * list float)%type.

Section Segmenter.

Variable station : string.
Variable vals : list float.
Variable datetime : list Z.
Variable radar_df : DataFrame.
Variable max_no_rain : Z.
Variable min_rain_threshold : float.
Variable temporal_res : string.

(** The inner [for j in range(i, len(vals))] up to the iteration that
    detects the gap.  [rest] is [vals[j:]], [k] is [j - i],
    [candidate_event] and [consecutive] are the loop's two variables.
    [Some (k, candidate_event, consecutive)] is the state at the [break];
    [None] means the range was exhausted without a [break]. *)
Fixpoint scan_candidate (rest : list float) (k : nat)
    (candidate_event : list float) (consecutive : nat)
    : option (nat * list float * nat) :=
  match rest with
  | [] => None
  | val :: rest' =>
      let candidate_event := candidate_event ++ [val] in
      if (val >=? min_rain_threshold)%py then
        scan_candidate rest' (S k) candidate_event 0
      else
        let consecutive := S consecutive in
        if (Z.of_nat consecutive >? max_no_rain)%Z then
          Some (k, candidate_event, consecutive)
        else scan_candidate rest' (S k) candidate_event consecutive
  end.

(** The sampling check of lines 145-154. *)
Definition sampling_ok (len_reflect len_rain : nat) : bool :=
  if (temporal_res =? "6min")%string then
    (len_reflect =? 10 * len_rain)%nat
  else if ((temporal_res =? "60min") || (temporal_res =? "1H"))%string then
    (len_reflect =? len_rain)%nat
  else true.

(** The body of [if consecutive_hours_no_rain > max_no_rain:], lines
    107-157, for the candidate started at [i] and closed at [j]. *)
Definition close_candidate (i j consecutive : nat) (candidate_event : list float)
    (st : acc) : result acc :=
  let '(events, Zv, Rv) := st in
  start_time <- getitem datetime (Z.of_nat i) ;;
  end_time <- getitem datetime (Z.of_nat j - max_no_rain) ;;
  column <- column_values (loc radar_df start_time end_time) station ;;
  let reflect_vals := removelast column in
  let '(reflect_min, reflect_avg, reflect_max) := stats reflect_vals in
  let rain_vals := firstn (length candidate_event - consecutive) candidate_event in
  let '(rain_intens_min, rain_intens_avg, rain_intens_max) := stats rain_vals in
  if negb (isnan rain_intens_avg) then
    let new_event :=
      Event_init start_time end_time [station]
        reflect_min reflect_avg reflect_max
        rain_intens_min rain_intens_avg rain_intens_max in
    if sampling_ok (length reflect_vals) (length rain_vals) then
      OK (events ++ [new_event], Zv ++ reflect_vals, Rv ++ rain_vals)
    else Raise (SamplingError station start_time end_time)
  else OK st.

(** [vals.iloc[i] >= min_rain_threshold] for [i] in range. *)
Definition above_threshold (i : nat) : bool :=
  match nth_error vals i with
  | Some v => (v >=? min_rain_threshold)%py
  | None => false
  end.

(** The outer [while i < len(vals)].  After a [break] at [j = i + k] the
    code sets [i = j + 1] and then falls through to the [i += 1] that ends
    every iteration, so the next iteration runs at [i + k + 2]. *)
Equations? while_loop (i : nat) (st : acc) : result acc
  by wf (length vals - i) lt :=
while_loop i st with lt_dec i (length vals) := {
  | right _ => OK st
  | left Hi =>
      if above_threshold i then
        match scan_candidate (skipn i vals) 0 [] 0 with
        | Some (k, candidate_event, consecutive) =>
            match close_candidate i (i + k) consecutive candidate_event st with
            | OK st' => while_loop (i + k + 1 + 1) st'
            | Raise e => Raise e
            end
        | None => while_loop (i + 1) st
        end
      else while_loop (i + 1) st }.
Proof. all: lia. Qed.

Definition select_events_single_station : result acc :=
  while_loop 0 ([], [], []).

End Segmenter.

(* ================================================================== *)
(** ** plot_single_events and merge_overlapping_events *)

(** [events.sort(key=lambda e: e.start_time)]: a stable sort on the start
    time.  An event is placed in front of the first event that does not
    start before it, so events with equal keys keep their order. *)
Fixpoint insert_by_start (e : Event) (sorted : list Event) : list Event :=
  match sorted with
  | [] => [e]
  | x :: rest =>
      if (start_time e <=? start_time x)%Z then e :: x :: rest
      else x :: insert_by_start e rest
  end.

Definition sort_by_start (events : list Event) : list Event :=
  fold_right insert_by_start [] events.

(** [plot_single_events]: the loop [for i in range(100): e = events[i]].
    The drawing calls have no effect on the program's values and are left
    out; what remains is the indexing of [events]. *)
Fixpoint plot_loop (events : list Event) (range : list nat) : result unit :=
  match range with
  | [] => OK tt
  | i :: range' =>
      e <- getitem events (Z.of_nat i) ;;
      plot_loop events range'
  end.

Definition plot_single_events (events : list Event) : result unit :=
  plot_loop events (seq 0 100).

(** One iteration of [for e in events[1:]] (lines 188-194); [res] is the
    list the source calls [result]. *)
Definition merge_step (res : list Event) (e : Event) : result (list Event) :=
  last <- getitem res (-1) ;;
  if (start_time e <=? end_time last)%Z then
    OK (removelast res ++ [merge_two_events last e])
  else OK (res ++ [e]).

Fixpoint merge_loop (res : list Event) (events : list Event)
    : result (list Event) :=
  match events with
  | [] => OK res
  | e :: events' =>
      res' <- merge_step res e ;;
      merge_loop res' events'
  end.

Definition merge_overlapping_events (events : list Event) : result (list Event) :=
  let events := sort_by_start events in
  _ <- plot_single_events events ;;
  first <- getitem events 0 ;;
  merge_loop [first] (skipn 1 events).

(* ================================================================== *)
(** ** select_all_events *)

(** [a.reshape((rows, cols))] of a flat array: ValueError unless the sizes
    agree. *)
Fixpoint rows_of {A} (rows cols : nat) (xs : list A) : list (list A) :=
  match rows with
  | O => []
  | S rows' => firstn cols xs :: rows_of rows' cols (skipn cols xs)
  end.

Definition reshape {A} (xs : list A) (rows cols : nat) : result (list (list A)) :=
  if (length xs =? rows * cols)%nat then OK (rows_of rows cols xs)
  else Raise ValueError.

(** The loop over [rain_df.items()] (lines 324-329). *)
Fixpoint stations_loop (items : list (string * list float)) (datetime : list Z)
    (radar_df : DataFrame) (max_no_rain : Z) (min_rain_threshold : float)
    (st : acc) : result acc :=
  match items with
  | [] => OK st
  | (station, vals) :: items' =>
      let '(events, Zv, Rv) := st in
      '(single_events, single_Z, single_R) <-
        select_events_single_station station vals datetime radar_df
          max_no_rain min_rain_threshold "6min" ;;
      stations_loop items' datetime radar_df max_no_rain min_rain_threshold
        (events ++ single_events, Zv ++ single_Z, Rv ++ single_R)
  end.

Definition nonzero (x : float) : bool := fne x (Fin 0%Q).
Definition notnan (x : float) : bool := negb (isnan x).

Definition select_all_events (rain_df radar_df : DataFrame) (max_no_rain : Z)
    (min_rain_threshold : float)
    : result (list Event * list (list float) * list float) :=
  let datetime := index rain_df in
  '(events, Zv, Rv) <-
    stations_loop (columns rain_df) datetime radar_df max_no_rain
      min_rain_threshold ([], [], []) ;;
  events <- (if (1 <? length events)%nat then merge_overlapping_events events
             else OK events) ;;
  Zm <- reshape Zv (length Zv / 10) 10 ;;
  if negb (length Zm =? length Rv)%nat then
    Raise (LengthError (length Zm) (length Rv))
  else
    let non_zero_mask := map (forallb nonzero) Zm in
    Rv <- bool_index non_zero_mask Rv ;;
    Zm <- bool_index non_zero_mask Zm ;;
    let non_nan_mask := map (forallb notnan) Zm in
    Rv <- bool_index non_nan_mask Rv ;;
    Zm <- bool_index non_nan_mask Zm ;;
    Zm <- bool_index (map nonzero Rv) Zm ;;
    Rv <- bool_index (map nonzero Rv) Rv ;;
    Zm <- bool_index (map notnan Rv) Zm ;;
    Rv <- bool_index (map notnan Rv) Rv ;;
    OK (events, Zm, Rv).

(* ================================================================== *)
(** ** write_events_to_excel *)

Section ExcelRows.

(** [math.log10] on the positive numbers is taken as given. *)
Variable log10 : Q -> Q.

(** [math.log10(x)]: nan for nan, ValueError (math domain error) for zero
    and for negative numbers. *)
Definition math_log10 (x : float) : result float :=
  match x with
  | NaN => OK NaN
  | Fin q => if Qle_bool q 0%Q then Raise ValueError else OK (Fin (log10 q))
  end.

(** [to_dBZ = lambda x : 0 if x == 0 else max(10*math.log10(x), 0)]. *)
Definition to_dBZ (x : float) : result float :=
  if (x =? Fin 0%Q)%py then OK (Fin 0%Q)
  else l <- math_log10 x ;; OK (max2 (Fin 10%Q * l)%py (Fin 0%Q)).

(** One row of [events_df], with the columns of line 377. *)
Record Row : Type := mkRow {
  col_start_time : Z;
  col_end_time : Z;
  col_duration : Z;
  col_stations : list string;
  col_num_stations : nat;
  col_reflect_min_dBZ : float;
  col_reflect_avg_dBZ : float;
  col_reflect_max_dBZ : float;
  col_rain_initens_min : float;
  col_rain_intens_avg : float;
  col_rain_intens_max : float;
  col_rain_cum_avg : float;
  col_type : event_type
}.

(** [event_row] of lines 391-395; the list is evaluated left to right. *)
Definition event_row (e : Event) : result Row :=
  zmin <- to_dBZ (reflect_min e) ;;
  zavg <- to_dBZ (reflect_avg e) ;;
  zmax <- to_dBZ (reflect_max e) ;;
  OK {| col_start_time := start_time e;
        col_end_time := end_time e;
        col_duration := duration e;
        col_stations := stations e;
        col_num_stations := num_stations e;
        col_reflect_min_dBZ := zmin;
        col_reflect_avg_dBZ := zavg;
        col_reflect_max_dBZ := zmax;
        col_rain_initens_min := rain_intens_min e;
        col_rain_intens_avg := rain_intens_avg e;
        col_rain_intens_max := rain_intens_max e;
        col_rain_cum_avg := rain_cum_avg e;
        col_type := type e |}.

(** The loop of lines 389-398: [events_df.loc[len(events_df)] = event_row]
    appends the row. *)
Fixpoint rows_loop (events : list Event) (events_df : list Row) : result (list Row) :=
  match events with
  | [] => OK events_df
  | e :: events' =>
      row <- event_row e ;;
      rows_loop events' (events_df ++ [row])
  end.

(** [write_events_to_excel], up to the table handed to [to_excel]. *)
Definition write_events_to_excel (events : list Event) : result (list Row) :=
  rows_loop events [].

End ExcelRows.

(* ================================================================== *)
(** ** objective *)

Definition fsub (x y : float) : float :=
  match x, y with Fin a, Fin b => Fin (a - b)%Q | _, _ => NaN end.

Section Calibration.

(** One entry of numpy's [R**b] is taken as given. *)
Variable power : float -> float -> float.

(** numpy's broadcasting of two vectors under an elementwise operation:
    equal lengths, or one of the two of length one; ValueError otherwise. *)
Definition broadcast2 (f : float -> float -> float) (xs ys : list float)
    : result (list float) :=
  match xs, ys with
  | [x], _ => OK (map (f x) ys)
  | _, [y] => OK (map (fun x => f x y) xs)
  | _, _ =>
      if (length xs =? length ys)%nat then
        OK (map (fun p => f (fst p) (snd p)) (combine xs ys))
      else Raise ValueError
  end.

(** [objective], for vectors [Z] and [R]:
    [np.mean((Z - a * R**b)**2)].  The mean of no entries is nan. *)
Definition objective (params : float * float) (Zv Rv : list float) : result float :=
  let '(a, b) := params in
  residuals <- broadcast2 fsub Zv (map (fun r => (a * power r b)%py) Rv) ;;
  OK (mean (map (fun x => (x * x)%py) residuals)).

End Calibration.

(* ================================================================== *)
(** ** Vocabulary of the properties *)

(** [(x + y) / 2]. *)
Definition arith_mean (x y : float) : float := ((x + y) / Fin 2%Q)%py.

(** [q] is a binary64 number: [m * 2^e] with fewer than 54 significant
    bits and an exponent in range. *)
Definition representable (q : Q) : Prop :=
  exists m e : Z,
    (Z.abs m < 2 ^ 53)%Z /\ (-1074 <= e <= 971)%Z /\
    (q == inject_Z m * pow2 e)%Q.

(** No operation of [(avg1 * d1 + avg2 * d2) / (d1 + d2)] rounds: the
    averages are numbers, the durations convert exactly, and the two
    products, their sum and the quotient are binary64 numbers. *)
Definition unrounded (avg1 avg2 : float) (d1 d2 : Z) : Prop :=
  match avg1, avg2 with
  | Fin a1, Fin a2 =>
      (Z.abs d1 < 2 ^ 52)%Z /\ (Z.abs d2 < 2 ^ 52)%Z /\
      representable (a1 * inject_Z d1) /\
      representable (a2 * inject_Z d2) /\
      representable (a1 * inject_Z d1 + a2 * inject_Z d2) /\
      representable ((a1 * inject_Z d1 + a2 * inject_Z d2) / inject_Z (d1 + d2))
  | _, _ => False
  end.

(** The minimum of an event's statistics is at most the maximum. *)
Definition extremes_ordered (e : Event) : Prop :=
  fle (reflect_min e) (reflect_max e) = true /\
  fle (rain_intens_min e) (rain_intens_max e) = true.

(** [lo <= avg <= hi] as Python evaluates it. *)
Definition bounds_ok (lo avg hi : float) : bool :=
  ((lo <=? avg) && (avg <=? hi))%py.

Definition reflect_bounds (e : Event) : bool :=
  bounds_ok (reflect_min e) (reflect_avg e) (reflect_max e).

Definition rain_bounds (e : Event) : bool :=
  bounds_ok (rain_intens_min e) (rain_intens_avg e) (rain_intens_max e).

Definition event_bounds (e : Event) : bool :=
  reflect_bounds e && rain_bounds e.

(** Some field among the six statistics of an event is nan. *)
Definition has_nan (e : Event) : bool :=
  isnan (reflect_min e) || isnan (reflect_avg e) || isnan (reflect_max e) ||
  isnan (rain_intens_min e) || isnan (rain_intens_avg e) || isnan (rain_intens_max e).

(** What holds of the statistics of an event the segmenter emits. *)
Definition segmented_bounds (e : Event) : Prop :=
  rain_bounds e = true /\
  isnan (rain_intens_min e) = false /\
  isnan (rain_intens_avg e) = false /\
  isnan (rain_intens_max e) = false /\
  (isnan (reflect_avg e) = false -> reflect_bounds e = true).

(** [R] holds between every two consecutive entries of a list. *)
Fixpoint chain (R : Event -> Event -> Prop) (events : list Event) : Prop :=
  match events with
  | a :: (b :: _) as rest => R a b /\ chain R rest
  | _ => True
  end.

Definition by_start (a b : Event) : Prop := (start_time a <= start_time b)%Z.

(** The later of two events starts after the earlier one has ended. *)
Definition apart (a b : Event) : Prop := (end_time a < start_time b)%Z.

(** A sample that survives the cleaning: neither zero nor nan. *)
Definition clean (x : float) : Prop := feq x (Fin 0%Q) = false /\ isnan x = false.

(** The number of reflectivity samples per rain sample that a
    temporal-resolution mode announces, when it announces one. *)
Definition mode_ratio (temporal_res : string) : option nat :=
  if (temporal_res =? "6min")%string then Some 10
  else if ((temporal_res =? "60min") || (temporal_res =? "1H"))%string then Some 1
  else None.

(** Strictly increasing timestamps. *)
Definition increasing (datetime : list Z) : Prop :=
  forall a b ta tb, nth_error datetime a = Some ta -> nth_error datetime b = Some tb ->
    a < b -> (ta < tb)%Z.

Section Run.

Variable station : string.
Variable vals : list float.
Variable datetime : list Z.
Variable radar_df : DataFrame.
Variable max_no_rain : Z.
Variable min_rain_threshold : float.
Variable temporal_res : string.

(** The heads of the [while] iterations of one run: [reaches i st] holds
    when the run of [select_events_single_station] arrives at the test
    [i < len(vals)] with accumulators [st]. *)
Inductive reaches : nat -> acc -> Prop :=
| reaches_start : reaches 0 ([], [], [])
| reaches_below i st :
    reaches i st -> i < length vals ->
    above_threshold vals min_rain_threshold i = false ->
    reaches (i + 1) st
| reaches_open i st :
    reaches i st -> i < length vals ->
    above_threshold vals min_rain_threshold i = true ->
    scan_candidate max_no_rain min_rain_threshold (skipn i vals) 0 [] 0 = None ->
    reaches (i + 1) st
| reaches_closed i st k candidate_event consecutive st' :
    reaches i st -> i < length vals ->
    above_threshold vals min_rain_threshold i = true ->
    scan_candidate max_no_rain min_rain_threshold (skipn i vals) 0 [] 0
      = Some (k, candidate_event, consecutive) ->
    close_candidate station datetime radar_df max_no_rain temporal_res
      i (i + k) consecutive candidate_event st = OK st' ->
    reaches (i + k + 1 + 1) st'.

(** The index of the iteration that follows the one at [i], when there is
    one. *)
Definition next_index (i : nat) : nat :=
  if above_threshold vals min_rain_threshold i then
    match scan_candidate max_no_rain min_rain_threshold (skipn i vals) 0 [] 0 with
    | Some (k, _, _) => i + k + 1 + 1
    | None => i + 1
    end
  else i + 1.

(** The times of [e] are those of a closure: a candidate started at [i]
    and closed at [j = i + k], with [start_time = datetime[i]] and
    [end_time = datetime[j - max_no_rain]]. *)
Definition closed_at (e : Event) : Prop :=
  exists i k cand c,
    above_threshold vals min_rain_threshold i = true /\
    scan_candidate max_no_rain min_rain_threshold (skipn i vals) 0 [] 0
      = Some (k, cand, c) /\
    getitem datetime (Z.of_nat i) = OK (start_time e) /\
    getitem datetime (Z.of_nat (i + k) - max_no_rain) = OK (end_time e) /\
    (Z.of_nat i < Z.of_nat (i + k) - max_no_rain)%Z.

End Run.

(** The order of the four types. *)
Definition severity (t : event_type) : nat :=
  match t with light => 0 | moderate => 1 | heavy => 2 | extreme => 3 end.

(** [e] is a value of the constructor: its derived fields are those
    [Event.__init__] computes from the others. *)
Definition constructed (e : Event) : Prop :=
  e = Event_init (start_time e) (end_time e) (stations e)
        (reflect_min e) (reflect_avg e) (reflect_max e)
        (rain_intens_min e) (rain_intens_avg e) (rain_intens_max e).

(** The window of [m] contains the window of [e]. *)
Definition covers (m e : Event) : Prop :=
  (start_time m <= start_time e)%Z /\ (end_time e <= end_time m)%Z.

(** The number of values of a series that are not at or above the
    threshold. *)
Definition below_count (thr : float) (vals : list float) : nat :=
  length (filter (fun v => negb (v >=? thr)%py) vals).

(** A constructed event of one station that holds a rain value at or above
    the threshold. *)
Definition of_station (station : string) (thr : float) (e : Event) : Prop :=
  constructed e /\ stations e = [station] /\ num_stations e = 1 /\
  fge (rain_intens_max e) thr = true.

(** Timestamps one hour apart, the first one at [origin]. *)
Definition hourly (origin : Z) (datetime : list Z) : Prop :=
  forall a t, nth_error datetime a = Some t -> t = (origin + 3600 * Z.of_nat a)%Z.

(** The exceptions that come out of the segmenter. *)
Definition segmenter_exn (e : exn) : Prop :=
  e = IndexError \/ e = KeyError \/ exists s t0 t1, e = SamplingError s t0 t1.

(** A number below zero. *)
Definition negative (x : float) : bool := (x <? Fin 0%Q)%py.

(** No reflectivity statistic of the event is below zero. *)
Definition exportable (e : Event) : bool :=
  negb (negative (reflect_min e) || negative (reflect_avg e) || negative (reflect_max e)).

(** The columns of a row that are copied from the event. *)
Definition copied_columns (r : Row) :=
  (col_start_time r, col_end_time r, col_duration r, col_stations r,
   col_num_stations r, col_rain_initens_min r, col_rain_intens_avg r,
   col_rain_intens_max r, col_rain_cum_avg r, col_type r).

Definition copied_fields (e : Event) :=
  (start_time e, end_time e, duration e, stations e, num_stations e,
   rain_intens_min e, rain_intens_avg e, rain_intens_max e, rain_cum_avg e, type e).

(** No decibel column of the row is below zero. *)
Definition dBZ_not_negative (r : Row) : Prop :=
  negative (col_reflect_min_dBZ r) = false /\
  negative (col_reflect_avg_dBZ r) = false /\
  negative (col_reflect_max_dBZ r) = false.

Definition total_duration (events : list Event) : Z :=
  fold_right (fun e d => (duration e + d)%Z) 0%Z events.

(* ================================================================== *)
(** ** Sample inputs *)

(** [n] timestamps spaced [step] seconds apart, starting at 0. *)
Definition grid (step : Z) (n : nat) : list Z :=
  map (fun k => (Z.of_nat k * step)%Z) (seq 0 n).

Definition dec (num den : Z) : float := Fin (Qmake num (Z.to_pos den)).

(** Two events of half an hour each, as the segmenter builds them on a
    gauge series sampled every 30 minutes: both have duration 0. *)
Definition half_hour_a : Event :=
  Event_init 0 1800 ["A"%string] (dec 1 1) (dec 1 1) (dec 1 1) (dec 1 1) (dec 1 1) (dec 1 1).
Definition half_hour_b : Event :=
  Event_init 0 1800 ["B"%string] (dec 3 1) (dec 3 1) (dec 3 1) (dec 3 1) (dec 3 1) (dec 3 1).

(** The gauge and radar tables, both sampled every 30 minutes, from which
    the segmenter builds these two events. *)
Definition rain_30min : DataFrame :=
  {| index := grid 1800 2;
     columns := [("A"%string, [dec 1 1; dec 0 1]); ("B"%string, [dec 3 1; dec 0 1])] |}.

Definition radar_30min : DataFrame :=
  {| index := grid 1800 2;
     columns := [("A"%string, [dec 1 1; dec 0 1]); ("B"%string, [dec 3 1; dec 0 1])] |}.

(** Two events of three hours each. *)
Definition three_hours_a : Event :=
  Event_init 0 10800 ["A"%string] (dec 1 1) (dec 2 1) (dec 4 1) (dec 1 2) (dec 1 1) (dec 2 1).
Definition three_hours_b : Event :=
  Event_init 3600 14400 ["B"%string] (dec 2 1) (dec 3 1) (dec 5 1) (dec 1 1) (dec 3 1) (dec 4 1).

(** The double nearest to [num/den]. *)
Definition double (num den : Z) : float := round (dec num den).

(** Two events of three hours each, all statistics 0.3 for one and 0.7
    for the other. *)
Definition three_tenths : Event :=
  Event_init 0 10800 ["A"%string] (double 3 10) (double 3 10) (double 3 10)
    (double 3 10) (double 3 10) (double 3 10).
Definition seven_tenths : Event :=
  Event_init 0 10800 ["B"%string] (double 7 10) (double 7 10) (double 7 10)
    (double 7 10) (double 7 10) (double 7 10).

(** An event of one hour and an event of two hours, all statistics 0.1
    (the averages of the second are the mean of two readings of 0.1), and
    the hourly gauge and radar tables from which the segmenter builds
    them. *)
Definition tenth_one_hour : Event :=
  Event_init 0 3600 ["A"%string] (double 1 10) (double 1 10) (double 1 10)
    (double 1 10) (double 1 10) (double 1 10).
Definition tenth_two_hours : Event :=
  Event_init 0 7200 ["B"%string]
    (double 1 10) (mean [double 1 10; double 1 10]) (double 1 10)
    (double 1 10) (mean [double 1 10; double 1 10]) (double 1 10).

Definition rain_tenths : DataFrame :=
  {| index := grid 3600 3;
     columns := [("A"%string, [double 1 10; dec 0 1; dec 0 1]);
                 ("B"%string, [double 1 10; double 1 10; dec 0 1])] |}.

Definition radar_tenths : DataFrame :=
  {| index := grid 3600 3;
     columns := [("A"%string, [double 1 10; dec 0 1; dec 0 1]);
                 ("B"%string, [double 1 10; double 1 10; dec 0 1])] |}.

(** Quotients of small integers at which the rounded operations of this
    file are compared with the machine's. *)
Definition quotients : list (Z * Z) :=
  [(1, 10); (3, 10); (7, 10); (1, 3); (2, 3); (22, 7); (5, 1); (1, 1000000);
   (123456789, 1000); (9007199254740993, 1024); (1, 1099511627776)]%Z.

(** Two values of the model are the same number, or both nan. *)
Definition same (x y : float) : bool :=
  match x, y with
  | NaN, NaN => true
  | Fin a, Fin b => Qeq_bool a b
  | _, _ => false
  end.

(** At the doubles nearest to two quotients, the machine's product, sum,
    quotient and weighted mean have the values the rounded operations of
    this file give. *)
Definition agrees (p q : Z * Z) : bool :=
  let x := IEEE.dec (fst p) (snd p) in
  let y := IEEE.dec (fst q) (snd q) in
  same (IEEE.to_float x) (double (fst p) (snd p)) &&
  same (IEEE.to_float (PrimFloat.mul x y)) (IEEE.to_float x * IEEE.to_float y)%f64 &&
  same (IEEE.to_float (PrimFloat.add x y)) (IEEE.to_float x + IEEE.to_float y)%f64 &&
  same (IEEE.to_float (PrimFloat.div x y)) (IEEE.to_float x / IEEE.to_float y)%f64 &&
  same (IEEE.to_float (IEEE.weighted_mean x y 1 2))
       ((IEEE.to_float x * float64_of_int 1 + IEEE.to_float y * float64_of_int 2)
          / float64_of_int (1 + 2))%f64 &&
  same (IEEE.to_float (IEEE.weighted_mean x y 3 3))
       ((IEEE.to_float x * float64_of_int 3 + IEEE.to_float y * float64_of_int 3)
          / float64_of_int (3 + 3))%f64.

(** Hourly gauge readings with two showers, 0.5 mm/h at 00:00 and at
    02:00, and a radar table sampled every hour. *)
Definition two_showers : list float := [dec 1 2; dec 0 1; dec 1 2; dec 0 1].

Definition radar_hourly : DataFrame :=
  {| index := grid 3600 5;
     columns := [("A"%string, [dec 10 1; dec 20 1; dec 30 1; dec 40 1; dec 50 1])] |}.

(** One shower in the first hour; the radar table is sampled every six
    minutes and its reading at 00:18 is missing. *)
Definition one_shower : list float := [dec 1 2; dec 0 1].

Definition radar_6min_gap : DataFrame :=
  {| index := grid 360 11;
     columns := [("A"%string,
                  [dec 10 1; dec 11 1; dec 12 1; NaN; dec 14 1; dec 15 1;
                   dec 16 1; dec 17 1; dec 18 1; dec 19 1; dec 20 1])] |}.

Definition radar_6min : DataFrame :=
  {| index := grid 360 11;
     columns := [("A"%string,
                  [dec 10 1; dec 11 1; dec 12 1; dec 13 1; dec 14 1; dec 15 1;
                   dec 16 1; dec 17 1; dec 18 1; dec 19 1; dec 20 1])] |}.

Definition rain_one_shower : DataFrame :=
  {| index := grid 3600 2; columns := [("A"%string, one_shower)] |}.

(** Two stations with one shower each, and their radar table. *)
Definition rain_two_stations : DataFrame :=
  {| index := grid 3600 2;
     columns := [("A"%string, one_shower); ("B"%string, one_shower)] |}.

Definition radar_two_stations : DataFrame :=
  {| index := grid 360 11;
     columns := [("A"%string,
                  [dec 10 1; dec 11 1; dec 12 1; dec 13 1; dec 14 1; dec 15 1;
                   dec 16 1; dec 17 1; dec 18 1; dec 19 1; dec 20 1]);
                 ("B"%string,
                  [dec 10 1; dec 0 1; dec 12 1; dec 13 1; dec 14 1; dec 15 1;
                   dec 16 1; dec 17 1; dec 18 1; dec 19 1; dec 20 1])] |}.

(** A shower with a missing gauge reading in its middle. *)
Definition shower_with_gap : list float :=
  [dec 1 2; NaN; dec 1 2; dec 0 1; dec 0 1].

(* ================================================================== *)
(** * Properties *)

(** ** Comparisons and statistics *)

Lemma fle_Fin a b : fle (Fin a) (Fin b) = true <-> (a <= b)%Q.
Proof. apply Qle_bool_iff. Qed.

Lemma flt_Fin a b : flt (Fin a) (Fin b) = true <-> (a < b)%Q.
Proof.
  cbn. rewrite negb_true_iff, <- not_true_iff_false, Qle_bool_iff.
  split; [apply Qnot_le_lt | apply Qlt_not_le].
Qed.

Lemma fle_true_inv x y :
  fle x y = true -> exists a b, x = Fin a /\ y = Fin b /\ (a <= b)%Q.
Proof.
  destruct x as [|a], y as [|b]; cbn; try discriminate.
  intros H. exists a, b. repeat split. now apply Qle_bool_iff.
Qed.

Lemma min2_Fin a b :
  exists m, min2 (Fin a) (Fin b) = Fin m /\ (m <= a)%Q /\ (m <= b)%Q.
Proof.
  unfold min2. destruct (flt (Fin b) (Fin a)) eqn:E.
  - exists b. apply flt_Fin in E. repeat split; [now apply Qlt_le_weak | apply Qle_refl].
  - exists a. repeat split; [apply Qle_refl |].
    apply Qnot_lt_le. intros H. apply flt_Fin in H. congruence.
Qed.

Lemma max2_Fin a b :
  exists m, max2 (Fin a) (Fin b) = Fin m /\ (a <= m)%Q /\ (b <= m)%Q.
Proof.
  unfold max2, fgt. destruct (flt (Fin a) (Fin b)) eqn:E.
  - exists b. apply flt_Fin in E. repeat split; [now apply Qlt_le_weak | apply Qle_refl].
  - exists a. repeat split; [apply Qle_refl |].
    apply Qnot_lt_le. intros H. apply flt_Fin in H. congruence.
Qed.

(** A list without nan is the image of a list of rationals. *)
Lemma sum_from_nan xs : fold_left fadd xs NaN = NaN.
Proof. induction xs as [|x xs IH]; cbn; auto. Qed.

Lemma sum_Fin_inv xs : forall a s,
  fold_left fadd xs (Fin a) = Fin s ->
  exists qs, xs = map Fin qs /\ (s == fold_left Qplus qs a)%Q.
Proof.
  induction xs as [|x xs IH]; intros a s H; cbn in H.
  - exists []. injection H as <-. split; [reflexivity | apply Qeq_refl].
  - destruct x as [|b]; cbn in H.
    + rewrite sum_from_nan in H. discriminate.
    + destruct (IH _ _ H) as (qs & -> & Hs). exists (b :: qs). now split.
Qed.

Lemma min_list_Fin qs : forall a,
  exists m, min_list (Fin a) (map Fin qs) = Fin m /\
            (m <= a)%Q /\ Forall (fun b => (m <= b)%Q) qs.
Proof.
  unfold min_list. induction qs as [|b qs IH]; intros a; cbn.
  - exists a. repeat split; [apply Qle_refl | constructor].
  - destruct (min2_Fin a b) as (m & -> & Hma & Hmb).
    destruct (IH m) as (m' & -> & Hm' & Hall). exists m'. repeat split.
    + eapply Qle_trans; eauto.
    + constructor; [eapply Qle_trans; eauto | exact Hall].
Qed.

Lemma max_list_Fin qs : forall a,
  exists m, max_list (Fin a) (map Fin qs) = Fin m /\
            (a <= m)%Q /\ Forall (fun b => (b <= m)%Q) qs.
Proof.
  unfold max_list. induction qs as [|b qs IH]; intros a; cbn.
  - exists a. repeat split; [apply Qle_refl | constructor].
  - destruct (max2_Fin a b) as (m & -> & Hma & Hmb).
    destruct (IH m) as (m' & -> & Hm' & Hall). exists m'. repeat split.
    + eapply Qle_trans; eauto.
    + constructor; [eapply Qle_trans; eauto | exact Hall].
Qed.

Lemma Qsum_lower m qs : Forall (fun b => (m <= b)%Q) qs -> forall a,
  (a + m * inject_Z (Z.of_nat (length qs)) <= fold_left Qplus qs a)%Q.
Proof.
  induction 1 as [|b qs Hb _ IH]; intros a.
  - cbn. change (inject_Z 0) with 0%Q. lra.
  - cbn [fold_left length]. specialize (IH (a + b)%Q).
    rewrite Nat2Z.inj_succ. unfold Z.succ. rewrite inject_Z_plus.
    change (inject_Z 1) with 1%Q.
    set (n := inject_Z (Z.of_nat (length qs))) in *.
    cbn beta in Hb. nra.
Qed.

Lemma Qsum_upper m qs : Forall (fun b => (b <= m)%Q) qs -> forall a,
  (fold_left Qplus qs a <= a + m * inject_Z (Z.of_nat (length qs)))%Q.
Proof.
  induction 1 as [|b qs Hb _ IH]; intros a.
  - cbn. change (inject_Z 0) with 0%Q. lra.
  - cbn [fold_left length]. specialize (IH (a + b)%Q).
    rewrite Nat2Z.inj_succ. unfold Z.succ. rewrite inject_Z_plus.
    change (inject_Z 1) with 1%Q.
    set (n := inject_Z (Z.of_nat (length qs))) in *.
    cbn beta in Hb. nra.
Qed.

(** Whenever the mean of a list is a number, the list is non-empty, free of
    nan, and its minimum and maximum enclose the mean. *)
Lemma stats_bounds xs lo avg hi :
  stats xs = (lo, avg, hi) -> isnan avg = false ->
  fle lo avg = true /\ fle avg hi = true /\ isnan lo = false /\ isnan hi = false.
Proof.
  destruct xs as [|x xs]; cbn [stats]; intros [= <- <- <-] Hnan; [discriminate|].
  unfold mean, sum in *. cbn [fold_left length] in *.
  destruct (fold_left fadd xs (fadd (Fin 0) x)) as [|s] eqn:Hs; [discriminate|].
  destruct x as [|a]; [cbn in Hs; rewrite sum_from_nan in Hs; discriminate|].
  cbn [fadd] in Hs. apply sum_Fin_inv in Hs as (qs & -> & Hs).
  destruct (min_list_Fin qs a) as (m & -> & Hma & Hmall).
  destruct (max_list_Fin qs a) as (M & -> & HMa & HMall).
  pose proof (Qsum_lower m qs Hmall (0 + a)%Q) as Hlo.
  pose proof (Qsum_upper M qs HMall (0 + a)%Q) as Hhi.
  rewrite <- Hs in Hlo, Hhi. rewrite length_map in *.
  set (n := inject_Z (Z.of_nat (length qs))) in *.
  assert (Hn : (0 <= n)%Q).
  { unfold n. rewrite <- (Zle_Qle 0). lia. }
  unfold of_nat, of_Z, fdiv.
  rewrite Nat2Z.inj_succ. unfold Z.succ. rewrite inject_Z_plus.
  change (inject_Z 1) with 1%Q. fold n.
  destruct (Qeq_bool (n + 1) 0) eqn:E.
  { apply Qeq_bool_iff in E. lra. }
  repeat split; try reflexivity; apply fle_Fin.
  - apply Qle_shift_div_l; [lra|]. nra.
  - apply Qle_shift_div_r; [lra|]. nra.
Qed.

(* ================================================================== *)
(** ** Rounding to binary64 *)

Lemma pow2_pos e : (0 < pow2 e)%Q.
Proof. apply Qpower_0_lt. reflexivity. Qed.

Lemma pow2_plus a b : (pow2 (a + b) == pow2 a * pow2 b)%Q.
Proof. apply Qpower_plus. discriminate. Qed.

Lemma pow2_minus a b : (pow2 (a - b) == pow2 a / pow2 b)%Q.
Proof. apply Qpower_minus. discriminate. Qed.

Lemma pow2_inject e : (0 <= e)%Z -> (pow2 e == inject_Z (2 ^ e))%Q.
Proof. intros H. unfold pow2. now rewrite Zpower_Qpower. Qed.

Lemma pow2_le a b : (a <= b)%Z -> (pow2 a <= pow2 b)%Q.
Proof. intros H. apply Qpower_le_compat_l; [exact H | discriminate]. Qed.

Lemma pow2_lt_inv a b : (pow2 a < pow2 b)%Q -> (a < b)%Z.
Proof. intros H. apply (Qpower_lt_compat_l_inv 2); [exact H | reflexivity]. Qed.

(** [floor_log2] does not overshoot. *)
Lemma floor_log2_le q : (0 < q)%Q -> (pow2 (floor_log2 q) <= q)%Q.
Proof.
  intros Hq. unfold floor_log2.
  set (n := Qnum q). set (d := Z.pos (Qden q)).
  destruct (Qle_bool (pow2 (Z.log2 n - Z.log2 d)) q) eqn:E.
  - now apply Qle_bool_iff.
  - clear E.
    assert (Hn : (0 < n)%Z).
    { unfold n. destruct q as [qn qd]. unfold Qlt in Hq. cbn in *. lia. }
    assert (Hd : (0 < d)%Z) by (unfold d; lia).
    destruct (Z.log2_spec n Hn) as [Hn1 _].
    destruct (Z.log2_spec d Hd) as [_ Hd2].
    pose proof (Z.log2_nonneg n) as Ln. pose proof (Z.log2_nonneg d) as Ld.
    replace (Z.log2 n - Z.log2 d - 1)%Z with (Z.log2 n - Z.succ (Z.log2 d))%Z by lia.
    rewrite pow2_minus, !pow2_inject by lia.
    assert (Eq : (q == inject_Z n / inject_Z d)%Q).
    { destruct q as [qn qd]. apply Qmake_Qdiv. }
    rewrite Eq.
    assert (Q1 : (inject_Z (2 ^ Z.log2 n) <= inject_Z n)%Q) by (rewrite <- Zle_Qle; lia).
    assert (Q2 : (inject_Z d <= inject_Z (2 ^ Z.succ (Z.log2 d)))%Q)
      by (rewrite <- Zle_Qle; lia).
    assert (Q3 : (0 < inject_Z d)%Q) by (rewrite <- (Zlt_Qlt 0); lia).
    assert (Q4 : (0 < inject_Z (2 ^ Z.log2 n))%Q).
    { rewrite <- (Zlt_Qlt 0). apply Z.pow_pos_nonneg; lia. }
    set (a := inject_Z (2 ^ Z.log2 n)) in *. set (b := inject_Z n) in *.
    set (c := inject_Z d) in *. set (e := inject_Z (2 ^ Z.succ (Z.log2 d))) in *.
    apply Qle_shift_div_l; [lra|].
    assert (Q5 : (a / e * c <= a)%Q).
    { setoid_replace (a / e * c)%Q with (a * c / e)%Q by (field; lra).
      apply Qle_shift_div_r; [lra|]. nra. }
    lra.
Qed.

Lemma round_half_even_Z q k : (q == inject_Z k)%Q -> round_half_even q = k.
Proof.
  intros E. unfold round_half_even.
  assert (F : Qfloor q = k) by (rewrite E; apply Qfloor_Z).
  rewrite F.
  assert (L : (q - inject_Z k < 1 # 2)%Q) by (rewrite E; lra).
  now rewrite (proj1 (Qlt_alt _ _) L).
Qed.

(** Rounding leaves a binary64 number as it is. *)
Lemma binary64_exact q : representable q -> feq (binary64 q) (Fin q) = true.
Proof.
  intros (m & e0 & Hm & He & E). unfold binary64.
  destruct (Qeq_bool q 0) eqn:Z0.
  - apply Qeq_bool_iff in Z0. cbn [feq]. apply Qeq_bool_iff. now symmetry.
  - assert (Hq : ~ (q == 0)%Q).
    { intros H. apply Qeq_bool_iff in H. congruence. }
    assert (Ha : (0 < Qabs q)%Q).
    { apply Qabs_case; intros H; apply Qle_lteq in H as [H|H]; try lra;
        try (symmetry in H); contradiction. }
    set (L := floor_log2 (Qabs q)).
    pose proof (floor_log2_le (Qabs q) Ha) as HL. fold L in HL.
    assert (Hlt : (Qabs q < pow2 (53 + e0))%Q).
    { rewrite E, Qabs_Qmult, (Qabs_pos (pow2 e0)) by (apply Qlt_le_weak, pow2_pos).
      rewrite pow2_plus. apply Qmult_lt_r; [apply pow2_pos|].
      rewrite pow2_inject by lia.
      setoid_replace (Qabs (inject_Z m)) with (inject_Z (Z.abs m))
        by (symmetry; apply Zabs_Qabs).
      rewrite <- Zlt_Qlt. exact Hm. }
    assert (HLe : (L < 53 + e0)%Z).
    { apply pow2_lt_inv. eapply Qle_lt_trans; eauto. }
    set (e := Z.max (-1074) (L - 52)).
    assert (Hee : (e <= e0)%Z) by (unfold e; lia).
    set (k := (m * 2 ^ (e0 - e))%Z).
    assert (Hk : (q / pow2 e == inject_Z k)%Q).
    { unfold k. rewrite inject_Z_mult, <- pow2_inject by lia.
      rewrite pow2_minus, E. field. apply Qnot_eq_sym, Qlt_not_eq, pow2_pos. }
    rewrite (round_half_even_Z _ _ Hk).
    assert (Hr : (Qred (inject_Z k * pow2 e) == q)%Q).
    { rewrite Qred_correct, <- Hk. field. apply Qnot_eq_sym, Qlt_not_eq, pow2_pos. }
    assert (Hov : Qle_bool (pow2 1024) (Qabs (Qred (inject_Z k * pow2 e))) = false).
    { apply not_true_iff_false. rewrite Qle_bool_iff. rewrite Hr.
      apply Qlt_not_le. eapply Qlt_le_trans; [exact Hlt|]. apply pow2_le. lia. }
    rewrite Hov. cbn [feq]. now apply Qeq_bool_iff.
Qed.

Lemma representable_comp q q' : (q == q')%Q -> representable q -> representable q'.
Proof.
  intros E (m & e & Hm & He & H). exists m, e.
  split; [exact Hm|]. split; [exact He|]. now rewrite <- E.
Qed.

Lemma representable_Z d : (Z.abs d < 2 ^ 53)%Z -> representable (inject_Z d).
Proof.
  intros H. exists d, 0%Z. split; [exact H|]. split; [lia|].
  unfold pow2. rewrite Qpower_0_r. ring.
Qed.

Lemma round_exact q : representable q -> exists r, round (Fin q) = Fin r /\ (r == q)%Q.
Proof.
  intros H. apply binary64_exact in H. cbn [round].
  destruct (binary64 q) as [|r]; [discriminate|].
  exists r. split; [reflexivity|]. now apply Qeq_bool_iff.
Qed.

(** The rounded operations of this file and the machine's give the same
    values at the doubles nearest to the sample quotients. *)
Remark binary64_agrees_with_machine :
  forallb (fun p => forallb (agrees p) quotients) quotients = true.
Proof. vm_compute. reflexivity. Qed.

(* ================================================================== *)
(** ** merge_two_events *)

Lemma inject_Z_eq0 d : Qeq_bool (inject_Z d) 0 = false <-> d <> 0%Z.
Proof.
  rewrite <- not_true_iff_false, Qeq_bool_iff.
  change 0%Q with (inject_Z 0). rewrite <- inject_Z_injective. tauto.
Qed.

(** When no operation rounds and the durations do not sum to zero, the
    averaged statistic of lines 217 and 222 is the weighted mean. *)
Lemma weighted_mean_unrounded a1 a2 d1 d2 :
  unrounded (Fin a1) (Fin a2) d1 d2 -> (d1 + d2 <> 0)%Z ->
  exists r,
    ((Fin a1 * float64_of_int d1 + Fin a2 * float64_of_int d2)
       / float64_of_int (d1 + d2))%f64 = Fin r /\
    (r == (a1 * inject_Z d1 + a2 * inject_Z d2) / inject_Z (d1 + d2))%Q.
Proof.
  intros (B1 & B2 & R1 & R2 & R3 & R4) Hd.
  unfold float64_of_int, of_Z.
  destruct (round_exact (inject_Z d1)) as (w1 & -> & E1); [apply representable_Z; lia|].
  destruct (round_exact (inject_Z d2)) as (w2 & -> & E2); [apply representable_Z; lia|].
  destruct (round_exact (inject_Z (d1 + d2))) as (w & -> & E); [apply representable_Z; lia|].
  unfold mul64, add64, div64. cbn [fmul].
  destruct (round_exact (a1 * w1)) as (p1 & -> & P1).
  { eapply representable_comp; [|exact R1]. now rewrite E1. }
  destruct (round_exact (a2 * w2)) as (p2 & -> & P2).
  { eapply representable_comp; [|exact R2]. now rewrite E2. }
  cbn [fadd].
  destruct (round_exact (p1 + p2)) as (t & -> & T).
  { eapply representable_comp; [|exact R3]. now rewrite P1, P2, E1, E2. }
  cbn [fdiv].
  assert (W : Qeq_bool w 0 = false).
  { apply not_true_iff_false. rewrite Qeq_bool_iff, E.
    apply inject_Z_eq0 in Hd. rewrite <- not_true_iff_false, Qeq_bool_iff in Hd.
    exact Hd. }
  rewrite W.
  destruct (round_exact (t / w)) as (r & -> & R).
  { eapply representable_comp; [|exact R4]. now rewrite T, P1, P2, E1, E2, E. }
  exists r. split; [reflexivity|]. now rewrite R, T, P1, P2, E1, E2, E.
Qed.

Lemma weighted_equal_duration a b d :
  d <> 0%Z -> unrounded (Fin a) (Fin b) d d ->
  feq ((Fin a * float64_of_int d + Fin b * float64_of_int d)
         / float64_of_int (d + d))%f64
      (arith_mean (Fin a) (Fin b)) = true.
Proof.
  intros Hd U.
  destruct (weighted_mean_unrounded a b d d U) as (r & -> & R); [lia|].
  unfold arith_mean. cbn [fadd fdiv feq].
  change (Qeq_bool 2 0) with false. cbn iota.
  apply Qeq_bool_iff. rewrite R.
  assert (Hq : ~ (inject_Z d == 0)%Q).
  { apply inject_Z_eq0 in Hd. rewrite <- not_true_iff_false, Qeq_bool_iff in Hd. exact Hd. }
  rewrite inject_Z_plus. field. lra.
Qed.

(** C4, as amended.  For two events of equal, non-zero duration, the
    merged [reflect_avg] and [rain_intens_avg] are equal to the arithmetic
    mean of the constituents' averages whenever no operation of the
    weighted mean rounds: the averages are numbers, and the two products of
    an average with the duration, their sum and the arithmetic mean are
    binary64 numbers. *)
Theorem merge_equal_duration_mean (e1 e2 : Event) :
  duration e1 = duration e2 ->
  duration e1 <> 0%Z ->
  unrounded (reflect_avg e1) (reflect_avg e2) (duration e1) (duration e2) ->
  unrounded (rain_intens_avg e1) (rain_intens_avg e2) (duration e1) (duration e2) ->
  feq (reflect_avg (merge_two_events e1 e2))
      (arith_mean (reflect_avg e1) (reflect_avg e2)) = true /\
  feq (rain_intens_avg (merge_two_events e1 e2))
      (arith_mean (rain_intens_avg e1) (rain_intens_avg e2)) = true.
Proof.
  intros Hd Hnz U1 U2.
  cbn [merge_two_events Event_init reflect_avg rain_intens_avg].
  rewrite <- Hd in *.
  destruct (reflect_avg e1) as [|a1]; [contradiction|].
  destruct (reflect_avg e2) as [|a2]; [contradiction|].
  destruct (rain_intens_avg e1) as [|r1]; [contradiction|].
  destruct (rain_intens_avg e2) as [|r2]; [contradiction|].
  split; now apply weighted_equal_duration.
Qed.

Ltac binary64_number m e :=
  exists m, e; split; [reflexivity | split; [lia | vm_compute; reflexivity]].

Lemma merge_equal_duration_mean_witness :
  feq (reflect_avg (merge_two_events three_hours_a three_hours_b))
      (arith_mean (reflect_avg three_hours_a) (reflect_avg three_hours_b)) = true /\
  feq (rain_intens_avg (merge_two_events three_hours_a three_hours_b))
      (arith_mean (rain_intens_avg three_hours_a) (rain_intens_avg three_hours_b)) = true.
Proof.
  apply (merge_equal_duration_mean three_hours_a three_hours_b).
  - reflexivity.
  - vm_compute. congruence.
  - cbn. split; [reflexivity|]. split; [reflexivity|].
    split; [binary64_number 6%Z 0%Z|]. split; [binary64_number 9%Z 0%Z|].
    split; [binary64_number 15%Z 0%Z | binary64_number 5%Z (-1)%Z].
  - cbn. split; [reflexivity|]. split; [reflexivity|].
    split; [binary64_number 3%Z 0%Z|]. split; [binary64_number 9%Z 0%Z|].
    split; [binary64_number 12%Z 0%Z | binary64_number 2%Z 0%Z].
Defined.

(** The two half-hour events are outputs of the segmenter. *)
Lemma half_hour_events_from_segmenter :
  select_events_single_station "A" [dec 1 1; dec 0 1] (index rain_30min)
    radar_30min 0 (dec 1 10) "60min" = OK ([half_hour_a], [dec 1 1], [dec 1 1]) /\
  select_events_single_station "B" [dec 3 1; dec 0 1] (index rain_30min)
    radar_30min 0 (dec 1 10) "60min" = OK ([half_hour_b], [dec 3 1], [dec 3 1]) /\
  duration half_hour_a = 0%Z /\ duration half_hour_b = 0%Z.
Proof. repeat split; vm_compute; reflexivity. Qed.

(** C4, as stated, fails when the common duration is zero: the two
    half-hour events have equal durations, and the merged averages are nan
    where the arithmetic means are 2.  It fails for a non-zero duration as
    well: the events with averages 0.3 and 0.7 have duration 3 each, and
    the merged averages are 0.49999999999999994, which is neither the
    arithmetic mean of the two doubles nor the double 0.5 that
    [(0.3 + 0.7) / 2] evaluates to. *)
Lemma merge_equal_duration_not_mean :
  (duration half_hour_a = duration half_hour_b /\
   feq (arith_mean (reflect_avg half_hour_a) (reflect_avg half_hour_b)) (Fin 2%Q) = true /\
   reflect_avg (merge_two_events half_hour_a half_hour_b) = NaN /\
   rain_intens_avg (merge_two_events half_hour_a half_hour_b) = NaN /\
   feq (reflect_avg (merge_two_events half_hour_a half_hour_b))
       (arith_mean (reflect_avg half_hour_a) (reflect_avg half_hour_b)) = false /\
   feq (rain_intens_avg (merge_two_events half_hour_a half_hour_b))
       (arith_mean (rain_intens_avg half_hour_a) (rain_intens_avg half_hour_b)) = false) /\
  (duration three_tenths = 3%Z /\ duration seven_tenths = 3%Z /\
   reflect_avg (merge_two_events three_tenths seven_tenths)
     = Fin (9007199254740991 # 18014398509481984) /\
   rain_intens_avg (merge_two_events three_tenths seven_tenths)
     = Fin (9007199254740991 # 18014398509481984) /\
   feq (reflect_avg (merge_two_events three_tenths seven_tenths))
       (arith_mean (reflect_avg three_tenths) (reflect_avg seven_tenths)) = false /\
   feq (rain_intens_avg (merge_two_events three_tenths seven_tenths))
       (arith_mean (rain_intens_avg three_tenths) (rain_intens_avg seven_tenths)) = false /\
   ((reflect_avg three_tenths + reflect_avg seven_tenths) / float64_of_int 2)%f64
     = Fin (1 # 2) /\
   feq (reflect_avg (merge_two_events three_tenths seven_tenths)) (Fin (1 # 2)) = false).
Proof. repeat split; vm_compute; reflexivity. Qed.

(** The same on the machine's binary64 values: the weighted mean of 0.3
    and 0.7 with durations 3 and 3 differs from their arithmetic mean in
    the last bit, the weighted mean of 0.1 and 0.1 with durations 1 and 2
    lies above 0.1, and with durations 0 and 0 it is nan. *)
Remark ieee_weighted_mean_rounding :
  PrimFloat.eqb (IEEE.weighted_mean (IEEE.dec 3 10) (IEEE.dec 7 10) 3 3)
                (IEEE.arith_mean (IEEE.dec 3 10) (IEEE.dec 7 10)) = false /\
  PrimFloat.ltb (IEEE.dec 1 10)
                (IEEE.weighted_mean (IEEE.dec 1 10) (IEEE.dec 1 10) 1 2) = true /\
  PrimFloat.is_nan (IEEE.weighted_mean (IEEE.dec 1 1) (IEEE.dec 3 1) 0 0) = true /\
  IEEE.to_float (IEEE.weighted_mean (IEEE.dec 3 10) (IEEE.dec 7 10) 3 3)
    = reflect_avg (merge_two_events three_tenths seven_tenths) /\
  IEEE.to_float (IEEE.weighted_mean (IEEE.dec 1 10) (IEEE.dec 1 10) 1 2)
    = reflect_avg (merge_two_events tenth_one_hour tenth_two_hours).
Proof. repeat split; vm_compute; reflexivity. Qed.

Lemma bounds_ok_inv lo avg hi :
  bounds_ok lo avg hi = true ->
  exists l a h, lo = Fin l /\ avg = Fin a /\ hi = Fin h /\ (l <= a)%Q /\ (a <= h)%Q.
Proof.
  unfold bounds_ok. rewrite andb_true_iff. intros [H1 H2].
  apply fle_true_inv in H1 as (l & a & -> & -> & Hla).
  apply fle_true_inv in H2 as (a' & h & [= <-] & -> & Hah).
  exists l, a, h. auto.
Qed.

(** The smaller of two minima is at most the larger of two maxima, when
    each minimum is at most its average and each average at most its
    maximum. *)
Lemma min2_le_max2 lo1 a1 hi1 lo2 a2 hi2 :
  bounds_ok lo1 a1 hi1 = true -> bounds_ok lo2 a2 hi2 = true ->
  fle (min2 lo1 lo2) (max2 hi1 hi2) = true.
Proof.
  intros B1 B2.
  apply bounds_ok_inv in B1 as (l1 & x1 & h1 & -> & -> & -> & Hl1 & Hh1).
  apply bounds_ok_inv in B2 as (l2 & x2 & h2 & -> & -> & -> & Hl2 & Hh2).
  destruct (min2_Fin l1 l2) as (m & -> & Hm1 & Hm2).
  destruct (max2_Fin h1 h2) as (M & -> & HM1 & HM2).
  apply fle_Fin. lra.
Qed.

(** The duration-weighted mean of two enclosed averages is enclosed by the
    smaller minimum and the larger maximum, when the weights are
    non-negative and not both zero and no operation rounds. *)
Lemma weighted_mean_bounds lo1 a1 hi1 lo2 a2 hi2 d1 d2 :
  bounds_ok lo1 a1 hi1 = true -> bounds_ok lo2 a2 hi2 = true ->
  (0 <= d1)%Z -> (0 <= d2)%Z -> (0 < d1 + d2)%Z ->
  unrounded a1 a2 d1 d2 ->
  bounds_ok (min2 lo1 lo2)
            ((a1 * float64_of_int d1 + a2 * float64_of_int d2)
               / float64_of_int (d1 + d2))%f64
            (max2 hi1 hi2) = true.
Proof.
  intros B1 B2 Hd1 Hd2 Hd U.
  apply bounds_ok_inv in B1 as (l1 & x1 & h1 & -> & -> & -> & Hl1 & Hh1).
  apply bounds_ok_inv in B2 as (l2 & x2 & h2 & -> & -> & -> & Hl2 & Hh2).
  destruct (min2_Fin l1 l2) as (m & -> & Hm1 & Hm2).
  destruct (max2_Fin h1 h2) as (M & -> & HM1 & HM2).
  destruct (weighted_mean_unrounded x1 x2 d1 d2 U) as (r & -> & R); [lia|].
  unfold bounds_ok. rewrite andb_true_iff, !fle_Fin, R.
  rewrite inject_Z_plus.
  assert (Q1 : (0 <= inject_Z d1)%Q) by (rewrite <- (Zle_Qle 0); lia).
  assert (Q2 : (0 <= inject_Z d2)%Q) by (rewrite <- (Zle_Qle 0); lia).
  assert (Q3 : (0 < inject_Z d1 + inject_Z d2)%Q).
  { rewrite <- inject_Z_plus, <- (Zlt_Qlt 0). lia. }
  set (w1 := inject_Z d1) in *. set (w2 := inject_Z d2) in *.
  split.
  - apply Qle_shift_div_l; [exact Q3|]. nra.
  - apply Qle_shift_div_r; [exact Q3|]. nra.
Qed.

Lemma merge_two_events_extremes e1 e2 :
  event_bounds e1 = true -> event_bounds e2 = true ->
  extremes_ordered (merge_two_events e1 e2).
Proof.
  unfold event_bounds, reflect_bounds, rain_bounds, extremes_ordered.
  rewrite !andb_true_iff. intros [A1 B1] [A2 B2].
  cbn [merge_two_events Event_init reflect_min reflect_max
       rain_intens_min rain_intens_max].
  split; eapply min2_le_max2; eauto.
Qed.

Lemma merge_two_events_bounds e1 e2 :
  event_bounds e1 = true -> event_bounds e2 = true ->
  (0 <= duration e1)%Z -> (0 <= duration e2)%Z ->
  (0 < duration e1 + duration e2)%Z ->
  unrounded (reflect_avg e1) (reflect_avg e2) (duration e1) (duration e2) ->
  unrounded (rain_intens_avg e1) (rain_intens_avg e2) (duration e1) (duration e2) ->
  event_bounds (merge_two_events e1 e2) = true.
Proof.
  unfold event_bounds, reflect_bounds, rain_bounds.
  rewrite !andb_true_iff. intros [A1 B1] [A2 B2] H1 H2 H U1 U2.
  cbn [merge_two_events Event_init reflect_min reflect_avg reflect_max
       rain_intens_min rain_intens_avg rain_intens_max].
  split; now apply weighted_mean_bounds.
Qed.

(* ================================================================== *)
(** ** The segmenter's loops *)

Lemma getitem_nat {A} (xs : list A) (i : nat) :
  getitem xs (Z.of_nat i) = from_option IndexError (nth_error xs i).
Proof.
  unfold getitem. destruct (0 <=? Z.of_nat i)%Z eqn:E; [|apply Z.leb_gt in E; lia].
  now rewrite Nat2Z.id.
Qed.

Lemma getitem_nonneg {A} (xs : list A) (k : Z) (x : A) :
  (0 <= k)%Z -> getitem xs k = OK x -> nth_error xs (Z.to_nat k) = Some x.
Proof.
  unfold getitem. intros Hk. destruct (0 <=? k)%Z eqn:E; [|apply Z.leb_gt in E; lia].
  destruct (nth_error xs (Z.to_nat k)); cbn; congruence.
Qed.

Section SegmenterFacts.

Variable station : string.
Variable vals : list float.
Variable datetime : list Z.
Variable radar_df : DataFrame.
Variable max_no_rain : Z.
Variable min_rain_threshold : float.
Variable temporal_res : string.

Local Abbreviation scan := (scan_candidate max_no_rain min_rain_threshold).
Local Abbreviation close := (close_candidate station datetime radar_df max_no_rain temporal_res).
Local Abbreviation loop := (while_loop station vals datetime radar_df max_no_rain
                    min_rain_threshold temporal_res).
Local Abbreviation above := (above_threshold vals min_rain_threshold).

(** One iteration of the [while], written out. *)
Lemma while_loop_step i st :
  loop i st =
  if (i <? length vals)%nat then
    if above i then
      match scan (skipn i vals) 0 [] 0 with
      | Some (k, candidate_event, consecutive) =>
          st' <- close i (i + k) consecutive candidate_event st ;;
          loop (i + k + 1 + 1) st'
      | None => loop (i + 1) st
      end
    else loop (i + 1) st
  else OK st.
Proof.
  match goal with |- _ = ?r => remember r as rhs eqn:Hr end.
  simp while_loop. subst rhs.
  destruct (lt_dec i (length vals)) as [H|H];
    destruct (Nat.ltb_spec i (length vals)); try lia; cbn; [|reflexivity].
  destruct (above i); [|reflexivity].
  destruct (scan (skipn i vals) 0 [] 0) as [[[k c] n]|]; [|reflexivity].
  destruct (close i (i + k) n c st); reflexivity.
Qed.

(** What the inner loop guarantees at its [break]: the candidate holds
    the [k + 1] values read, the run of below-threshold values is shorter
    than the candidate and longer than the tolerance. *)
Lemma scan_candidate_spec rest : forall k cand c k' cand' c',
  scan rest k cand c = Some (k', cand', c') ->
  length cand = k -> c <= k ->
  (c = k -> exists v rest', rest = v :: rest' /\ fge v min_rain_threshold = true) ->
  k <= k' /\ length cand' = S k' /\ 1 <= c' <= k' /\ (Z.of_nat c' > max_no_rain)%Z /\
  k' - k < length rest /\
  exists read, cand' = cand ++ read /\ read = firstn (S (k' - k)) rest.
Proof.
  induction rest as [|v rest IH]; intros k cand c k' cand' c' H Hlen Hc Hfirst;
    cbn [scan_candidate] in H; [discriminate|].
  destruct (fge v min_rain_threshold) eqn:Ev.
  - apply IH in H; [| rewrite length_app; cbn; lia | lia | intros; lia].
    destruct H as (Hk & Hl & Hc' & HG & Hrest & read & -> & ->).
    repeat split; try lia. { cbn; lia. }
    exists (v :: firstn (S (k' - S k)) rest). split.
    + now rewrite <- app_assoc.
    + replace (S (k' - k)) with (S (S (k' - S k))) by lia. reflexivity.
  - assert (Hck : c < k).
    { destruct (Nat.eq_dec c k) as [E|E]; [|lia].
      destruct (Hfirst E) as (v0 & r0 & [= <- <-] & Hv). congruence. }
    destruct (Z.of_nat (S c) >? max_no_rain)%Z eqn:EG.
    + injection H as <- <- <-. rewrite Z.gtb_ltb, Z.ltb_lt in EG.
      repeat split; try lia.
      * rewrite length_app. cbn. lia.
      * cbn. lia.
      * exists [v]. split; [reflexivity|]. now rewrite Nat.sub_diag.
    + apply IH in H; [| rewrite length_app; cbn; lia | lia | intros; lia].
      destruct H as (Hk & Hl & Hc' & HG & Hrest & read & -> & ->).
      repeat split; try lia. { cbn; lia. }
      exists (v :: firstn (S (k' - S k)) rest). split.
      * now rewrite <- app_assoc.
      * replace (S (k' - k)) with (S (S (k' - S k))) by lia. reflexivity.
Qed.

Lemma skipn_nth_error {A} (xs : list A) : forall i v,
  nth_error xs i = Some v -> skipn i xs = v :: skipn (S i) xs.
Proof.
  induction xs as [|x xs IH]; intros [|i] v H; cbn in *; try discriminate.
  - now injection H as ->.
  - now apply IH.
Qed.

Lemma above_threshold_inv i :
  above i = true ->
  exists v, nth_error vals i = Some v /\ fge v min_rain_threshold = true /\
            i < length vals /\ skipn i vals = v :: skipn (S i) vals.
Proof.
  unfold above_threshold. destruct (nth_error vals i) as [v|] eqn:E; [|discriminate].
  intros H. exists v. repeat split; auto.
  - apply nth_error_Some. congruence.
  - now apply skipn_nth_error.
Qed.

(** The inner loop started on a value at or above the threshold. *)
Lemma scan_from_start i k cand c :
  above i = true ->
  scan (skipn i vals) 0 [] 0 = Some (k, cand, c) ->
  length cand = S k /\ 1 <= c <= k /\ (Z.of_nat c > max_no_rain)%Z /\
  i + k < length vals /\ cand = firstn (S k) (skipn i vals).
Proof.
  intros Ha Hs. destruct (above_threshold_inv i Ha) as (v & Hv & Hge & Hi & Hsk).
  destruct (scan_candidate_spec _ _ _ _ _ _ _ Hs) as (_ & Hl & Hc & HG & Hr & read & -> & ->);
    [reflexivity | lia | intros _; rewrite Hsk; eauto |].
  rewrite Nat.sub_0_r in *. rewrite length_skipn in Hr.
  repeat split; auto; lia.
Qed.

(** The index read for the end time lies strictly after the candidate's
    start and, for a non-negative tolerance, not after the closing index. *)
Lemma closing_index_after_start i k cand c :
  above i = true ->
  scan (skipn i vals) 0 [] 0 = Some (k, cand, c) ->
  (Z.of_nat i < Z.of_nat (i + k) - max_no_rain)%Z /\
  ((0 <= max_no_rain)%Z -> (Z.of_nat (i + k) - max_no_rain <= Z.of_nat (i + k))%Z).
Proof.
  intros Ha Hs. destruct (scan_from_start i k cand c Ha Hs) as (_ & Hc & HG & _). lia.
Qed.

Lemma stats_avg xs : snd (fst (stats xs)) = mean xs.
Proof. destruct xs; reflexivity. Qed.

(** The two ways [close_candidate] can complete: the candidate is dropped
    because its rain average is nan, or an event is appended. *)
Lemma close_candidate_OK i j c cand events Zv Rv st' :
  close i j c cand (events, Zv, Rv) = OK st' ->
  exists t0 t1 column,
    getitem datetime (Z.of_nat i) = OK t0 /\
    getitem datetime (Z.of_nat j - max_no_rain) = OK t1 /\
    column_values (loc radar_df t0 t1) station = OK column /\
    let reflect_vals := removelast column in
    let rain_vals := firstn (length cand - c) cand in
    (isnan (mean rain_vals) = true /\ st' = (events, Zv, Rv)) \/
    (isnan (mean rain_vals) = false /\
     sampling_ok temporal_res (length reflect_vals) (length rain_vals) = true /\
     exists zmin zavg zmax rmin rmax,
       stats reflect_vals = (zmin, zavg, zmax) /\
       stats rain_vals = (rmin, mean rain_vals, rmax) /\
       st' = (events ++ [Event_init t0 t1 [station] zmin zavg zmax
                           rmin (mean rain_vals) rmax],
              Zv ++ reflect_vals, Rv ++ rain_vals)).
Proof.
  unfold close_candidate. intros H.
  destruct (getitem datetime (Z.of_nat i)) as [t0|] eqn:E0; cbn [bind] in H; [|discriminate].
  destruct (getitem datetime (Z.of_nat j - max_no_rain)) as [t1|] eqn:E1;
    cbn [bind] in H; [|discriminate].
  destruct (column_values (loc radar_df t0 t1) station) as [column|] eqn:E2;
    cbn [bind] in H; [|discriminate].
  pose proof (stats_avg (firstn (length cand - c) cand)) as Havg.
  destruct (stats (removelast column)) as [[zmin zavg] zmax] eqn:Ez.
  destruct (stats (firstn (length cand - c) cand)) as [[rmin ravg] rmax] eqn:Er.
  cbn in Havg. subst ravg.
  exists t0, t1, column. do 3 (split; [first [reflexivity | assumption]|]). cbv zeta.
  destruct (isnan (mean (firstn (length cand - c) cand))) eqn:En; cbn [negb] in H.
  - left. split; congruence.
  - right. split; [reflexivity|].
    destruct (sampling_ok temporal_res _ _) eqn:Es; [|discriminate].
    split; [reflexivity|]. exists zmin, zavg, zmax, rmin, rmax.
    rewrite Ez. repeat split. congruence.
Qed.

(** A property of the accumulators that every completed closure preserves
    holds when the loop returns. *)
Lemma while_loop_invariant (P : acc -> Prop) :
  (forall i k cand c st st',
      i < length vals -> above i = true ->
      scan (skipn i vals) 0 [] 0 = Some (k, cand, c) ->
      P st -> close i (i + k) c cand st = OK st' -> P st') ->
  forall i st st', P st -> loop i st = OK st' -> P st'.
Proof.
  intros Hstep i. remember (length vals - i) as n eqn:Hn.
  revert i Hn. induction n as [n IH] using lt_wf_ind. intros i Hn st st' HP.
  rewrite while_loop_step. destruct (Nat.ltb_spec i (length vals)) as [Hi|Hi].
  - destruct (above i) eqn:Ha.
    + destruct (scan (skipn i vals) 0 [] 0) as [[[k cand] c]|] eqn:Hs.
      * destruct (close i (i + k) c cand st) as [st1|] eqn:Hc; cbn [bind]; [|discriminate].
        eapply (IH (length vals - (i + k + 1 + 1))); [lia | reflexivity |].
        eapply Hstep; eauto.
      * eapply (IH (length vals - (i + 1))); [lia | reflexivity | exact HP].
    + eapply (IH (length vals - (i + 1))); [lia | reflexivity | exact HP].
  - now intros [= <-].
Qed.

End SegmenterFacts.

(* ================================================================== *)
(** ** select_events_single_station *)

Section SegmenterProperties.

Variable station : string.
Variable vals : list float.
Variable datetime : list Z.
Variable radar_df : DataFrame.
Variable max_no_rain : Z.
Variable min_rain_threshold : float.
Variable temporal_res : string.

Local Abbreviation scan := (scan_candidate max_no_rain min_rain_threshold).
Local Abbreviation close := (close_candidate station datetime radar_df max_no_rain temporal_res).
Local Abbreviation loop := (while_loop station vals datetime radar_df max_no_rain
                    min_rain_threshold temporal_res).
Local Abbreviation above := (above_threshold vals min_rain_threshold).
Local Abbreviation run := (select_events_single_station station vals datetime radar_df
                    max_no_rain min_rain_threshold temporal_res).
Local Abbreviation reached := (reaches station vals datetime radar_df max_no_rain
                    min_rain_threshold temporal_res).

(** After a closure at [j = i + k] the loop continues at [j + 2]. *)
Lemma resume_after_close i k cand c st st' :
  above i = true ->
  scan (skipn i vals) 0 [] 0 = Some (k, cand, c) ->
  close i (i + k) c cand st = OK st' ->
  loop i st = loop (i + k + 2) st'.
Proof.
  intros Ha Hs Hc. rewrite while_loop_step.
  destruct (above_threshold_inv vals min_rain_threshold i Ha) as (_ & _ & _ & Hi & _).
  apply Nat.ltb_lt in Hi. rewrite Hi, Ha, Hs, Hc. cbn [bind].
  f_equal. lia.
Qed.

(** The run is the loop continued from any iteration head it reaches. *)
Lemma reaches_run i st : reached i st -> run = loop i st.
Proof.
  induction 1 as [|i st _ IH Hi Ha|i st _ IH Hi Ha Hs|i st k cand c st' _ IH Hi Ha Hs Hc].
  - reflexivity.
  - rewrite IH, while_loop_step. apply Nat.ltb_lt in Hi. now rewrite Hi, Ha.
  - rewrite IH, while_loop_step. apply Nat.ltb_lt in Hi. now rewrite Hi, Ha, Hs.
  - rewrite IH, while_loop_step. apply Nat.ltb_lt in Hi. now rewrite Hi, Ha, Hs, Hc.
Qed.

Lemma next_index_gt i : i < next_index vals max_no_rain min_rain_threshold i.
Proof.
  unfold next_index. destruct (above i); [|lia].
  destruct (scan (skipn i vals) 0 [] 0) as [[[k cand] c]|]; lia.
Qed.

Lemma reaches_pred b sb :
  reached b sb ->
  b = 0 \/ exists b' sb', reached b' sb' /\ b' < length vals /\
                          b = next_index vals max_no_rain min_rain_threshold b'.
Proof.
  intros H. destruct H as [|i st Hr Hi Ha|i st Hr Hi Ha Hs|i st k cand c st' Hr Hi Ha Hs Hc];
    [now left | right; exists i, st ..]; unfold next_index.
  - now rewrite Ha.
  - now rewrite Ha, Hs.
  - now rewrite Ha, Hs.
Qed.

(** The iteration heads of a run are visited in increasing order, each
    followed directly by its [next_index]. *)
Lemma reaches_ordered b : forall a sa sb,
  reached a sa -> reached b sb -> a < b ->
  next_index vals max_no_rain min_rain_threshold a <= b.
Proof.
  induction b as [b IH] using lt_wf_ind. intros a sa sb Ha Hb Hab.
  destruct (reaches_pred b sb Hb) as [->|(b' & sb' & Hb' & _ & Hnext)]; [lia|].
  pose proof (next_index_gt b') as Hgt. rewrite <- Hnext in Hgt.
  destruct (Nat.lt_trichotomy a b') as [Hlt|[->|Hlt]].
  - specialize (IH b' Hgt a sa sb' Ha Hb' Hlt). lia.
  - lia.
  - specialize (IH a Hab b' sb' sa Hb' Ha Hlt). lia.
Qed.

(** After a closure at [j = i + k] no iteration runs at an index from
    [i + 1] to [j + 1]: the closed event is not re-examined, and neither is
    the value at [j + 1]. *)
Lemma closure_skips_to i st k cand c :
  reached i st -> above i = true ->
  scan (skipn i vals) 0 [] 0 = Some (k, cand, c) ->
  forall n st', i < n <= i + k + 1 -> ~ reached n st'.
Proof.
  intros Hr Ha Hs n st' Hn Hr'.
  pose proof (reaches_ordered n i st st' Hr Hr' (proj1 Hn)) as H.
  unfold next_index in H. rewrite Ha, Hs in H. lia.
Qed.

Lemma sampling_ok_ratio ratio n m :
  mode_ratio temporal_res = Some ratio ->
  sampling_ok temporal_res n m = (n =? ratio * m)%nat.
Proof.
  unfold mode_ratio, sampling_ok.
  destruct (temporal_res =? "6min")%string; [now intros [= <-]|].
  destruct ((temporal_res =? "60min") || (temporal_res =? "1H"))%string; [|discriminate].
  intros [= <-]. now rewrite Nat.mul_1_l.
Qed.

(** In a mode that announces a ratio, the samples of a run that returns
    are in that ratio. *)
Lemma sampled_lengths_agree ratio events Zv Rv :
  mode_ratio temporal_res = Some ratio ->
  run = OK (events, Zv, Rv) ->
  length Zv = ratio * length Rv.
Proof.
  intros Hm Hrun.
  apply (while_loop_invariant station vals datetime radar_df max_no_rain
           min_rain_threshold temporal_res
           (fun st => length (snd (fst st)) = ratio * length (snd st))) in Hrun;
    [exact Hrun | | cbn; lia].
  intros i k cand c [[ev Z0] R0] st' _ _ _ HP Hc. cbn [fst snd] in HP.
  apply close_candidate_OK in Hc as (t0 & t1 & column & _ & _ & _ & Hc).
  destruct Hc as [[_ ->] | (_ & Hok & zmin & zavg & zmax & rmin & rmax & _ & _ & ->)];
    cbn [fst snd]; [exact HP|].
  rewrite (sampling_ok_ratio ratio _ _ Hm) in Hok. apply Nat.eqb_eq in Hok.
  rewrite !length_app. lia.
Qed.

(** C3, as amended.  In a mode that announces a ratio (10 for '6min', 1 for
    '60min' and '1H'), whenever the run closes a candidate whose rain
    average is not nan and whose reflectivity segment is not ratio times as
    long as its rain samples, the call raises the sampling exception: no
    events or samples are returned. *)
Theorem sampling_mismatch_raises ratio i st k cand c t0 t1 column :
  mode_ratio temporal_res = Some ratio ->
  reached i st ->
  above i = true ->
  scan (skipn i vals) 0 [] 0 = Some (k, cand, c) ->
  getitem datetime (Z.of_nat i) = OK t0 ->
  getitem datetime (Z.of_nat (i + k) - max_no_rain) = OK t1 ->
  column_values (loc radar_df t0 t1) station = OK column ->
  isnan (mean (firstn (length cand - c) cand)) = false ->
  length (removelast column) <> ratio * length (firstn (length cand - c) cand) ->
  run = Raise (SamplingError station t0 t1).
Proof.
  intros Hm Hr Ha Hs H0 H1 H2 Hn Hlen.
  rewrite (reaches_run i st Hr), while_loop_step.
  destruct (above_threshold_inv vals min_rain_threshold i Ha) as (_ & _ & _ & Hi & _).
  apply Nat.ltb_lt in Hi. rewrite Hi, Ha, Hs.
  unfold close_candidate. destruct st as [[events Zv] Rv].
  rewrite H0, H1. cbn [bind]. rewrite H2. cbn [bind].
  pose proof (stats_avg (firstn (length cand - c) cand)) as Havg.
  destruct (stats (removelast column)) as [[zmin zavg] zmax].
  destruct (stats (firstn (length cand - c) cand)) as [[rmin ravg] rmax].
  cbn in Havg. subst ravg. rewrite Hn. cbn [negb].
  rewrite (sampling_ok_ratio ratio _ _ Hm).
  apply Nat.eqb_neq in Hlen. now rewrite Hlen.
Qed.

End SegmenterProperties.

Section SegmenterEvents.

Variable station : string.
Variable vals : list float.
Variable datetime : list Z.
Variable radar_df : DataFrame.
Variable max_no_rain : Z.
Variable min_rain_threshold : float.
Variable temporal_res : string.

Local Abbreviation scan := (scan_candidate max_no_rain min_rain_threshold).
Local Abbreviation above := (above_threshold vals min_rain_threshold).
Local Abbreviation run := (select_events_single_station station vals datetime radar_df
                    max_no_rain min_rain_threshold temporal_res).
Local Abbreviation closed_at := (closed_at vals datetime max_no_rain min_rain_threshold).

Lemma emitted_events_closed_at events Zv Rv :
  run = OK (events, Zv, Rv) -> Forall closed_at events.
Proof.
  intros Hrun.
  apply (while_loop_invariant station vals datetime radar_df max_no_rain
           min_rain_threshold temporal_res
           (fun st => Forall closed_at (fst (fst st)))) in Hrun; [exact Hrun | | constructor].
  intros i k cand c [[ev Z0] R0] st' Hi Ha Hs HP Hc. cbn [fst] in HP.
  apply close_candidate_OK in Hc as (t0 & t1 & column & H0 & H1 & _ & Hc).
  destruct Hc as [[_ ->] | (_ & _ & zmin & zavg & zmax & rmin & rmax & _ & _ & ->)];
    cbn [fst]; [exact HP|].
  apply Forall_app. split; [exact HP|]. constructor; [|constructor].
  exists i, k, cand, c. cbn [Event_init start_time end_time].
  repeat split; auto.
  apply (closing_index_after_start vals max_no_rain min_rain_threshold i k cand c Ha Hs).
Qed.

Lemma closed_at_increasing e :
  increasing datetime -> closed_at e -> (start_time e < end_time e)%Z.
Proof.
  intros Hinc (i & k & cand & c & _ & _ & H0 & H1 & Hlt).
  rewrite getitem_nat in H0.
  apply getitem_nonneg in H1; [|lia].
  destruct (nth_error datetime i) as [t|] eqn:E; cbn in H0; [|discriminate].
  injection H0 as ->. eapply Hinc; eauto. lia.
Qed.

(** Statistics of the events the segmenter emits. *)
Lemma emitted_events_bounds events Zv Rv :
  run = OK (events, Zv, Rv) ->
  Forall segmented_bounds events.
Proof.
  intros Hrun.
  apply (while_loop_invariant station vals datetime radar_df max_no_rain
           min_rain_threshold temporal_res
           (fun st => Forall segmented_bounds (fst (fst st)))) in Hrun;
    [exact Hrun | | constructor].
  intros i k cand c [[ev Z0] R0] st' Hi Ha Hs HP Hc. cbn [fst] in HP.
  apply close_candidate_OK in Hc as (t0 & t1 & column & _ & _ & _ & Hc).
  destruct Hc as [[_ ->] | (Hn & _ & zmin & zavg & zmax & rmin & rmax & Hz & Hr & ->)];
    cbn [fst]; [exact HP|].
  apply Forall_app. split; [exact HP|]. constructor; [|constructor].
  unfold segmented_bounds, rain_bounds, reflect_bounds, bounds_ok.
  cbn [Event_init rain_intens_min rain_intens_avg rain_intens_max
       reflect_min reflect_avg reflect_max].
  destruct (stats_bounds _ _ _ _ Hr Hn) as (A & B & C & D).
  rewrite A, B. repeat split; auto.
  intros Hzn. destruct (stats_bounds _ _ _ _ Hz Hzn) as (A' & B' & _).
  now rewrite A', B'.
Qed.

End SegmenterEvents.

(** C6.  The index [j - G] read for the end time of a closed candidate
    lies strictly after the candidate's start index [i], whatever the
    series and the tolerance; every event the segmenter emits has
    [start_time = datetime[i]] and [end_time = datetime[j - G]] for such
    a closure, and with strictly increasing timestamps its end time is
    later than its start time. *)
Theorem closure_ends_after_start
    (station : string) (vals : list float) (datetime : list Z)
    (radar_df : DataFrame) (max_no_rain : Z) (min_rain_threshold : float)
    (temporal_res : string) :
  (forall i k cand c,
      above_threshold vals min_rain_threshold i = true ->
      scan_candidate max_no_rain min_rain_threshold (skipn i vals) 0 [] 0
        = Some (k, cand, c) ->
      (Z.of_nat i < Z.of_nat (i + k) - max_no_rain)%Z) /\
  (forall events Zv Rv,
      increasing datetime ->
      select_events_single_station station vals datetime radar_df max_no_rain
        min_rain_threshold temporal_res = OK (events, Zv, Rv) ->
      Forall (fun e => closed_at vals datetime max_no_rain min_rain_threshold e /\
                       (start_time e < end_time e)%Z) events).
Proof.
  split.
  - intros i k cand c Ha Hs.
    apply (closing_index_after_start vals max_no_rain min_rain_threshold i k cand c Ha Hs).
  - intros events Zv Rv Hinc Hrun.
    apply emitted_events_closed_at in Hrun.
    eapply Forall_impl; [|exact Hrun]. intros e He. split; [exact He|].
    now apply closed_at_increasing in He.
Qed.

Lemma grid_nth_error step n a t :
  nth_error (grid step n) a = Some t -> t = (Z.of_nat a * step)%Z.
Proof.
  unfold grid. rewrite nth_error_map.
  destruct (nth_error (seq 0 n) a) as [k|] eqn:E; cbn; [|discriminate].
  intros [= <-].
  assert (Ha : a < n).
  { rewrite <- (length_seq n 0). apply nth_error_Some. congruence. }
  rewrite nth_error_nth' with (d := 0) in E by (now rewrite length_seq).
  rewrite seq_nth in E by exact Ha. injection E as <-. reflexivity.
Qed.

Lemma grid_increasing step n : (0 < step)%Z -> increasing (grid step n).
Proof.
  intros Hs a b ta tb Ha Hb Hab.
  apply grid_nth_error in Ha, Hb. subst. nia.
Qed.

Lemma closure_ends_after_start_witness :
  (0 < 0 + 1 - 0)%Z /\
  exists events Zv Rv,
    select_events_single_station "A" two_showers (grid 3600 4) radar_hourly 0
      (dec 1 10) "60min" = OK (events, Zv, Rv) /\
    length events = 1 /\
    Forall (fun e => closed_at two_showers (grid 3600 4) 0 (dec 1 10) e /\
                     (start_time e < end_time e)%Z) events.
Proof.
  pose proof (closure_ends_after_start "A" two_showers (grid 3600 4) radar_hourly 0
                (dec 1 10) "60min") as [H1 H2].
  split.
  - apply (H1 0 1 [dec 1 2; dec 0 1] 1); reflexivity.
  - eexists _, _, _. split; [vm_compute; reflexivity|]. split; [reflexivity|].
    eapply H2; [apply grid_increasing; reflexivity | vm_compute; reflexivity].
Defined.

Lemma sampling_mismatch_raises_witness :
  select_events_single_station "A" one_shower (grid 3600 2) radar_hourly 0
    (dec 1 10) "6min" = Raise (SamplingError "A" 0 3600).
Proof.
  apply (sampling_mismatch_raises "A" one_shower (grid 3600 2) radar_hourly 0
           (dec 1 10) "6min" 10 0 ([], [], []) 1 one_shower 1 0%Z 3600%Z
           [dec 10 1; dec 20 1]).
  - reflexivity.
  - constructor.
  - reflexivity.
  - reflexivity.
  - reflexivity.
  - reflexivity.
  - reflexivity.
  - reflexivity.
  - vm_compute. discriminate.
Defined.

(** C3, as stated, fails for a candidate whose rain average is nan.  The run
    on the shower with a missing reading closes one candidate, at index 4;
    its reflectivity segment has 3 values for 3 rain samples where the
    '6min' mode announces 30, and the call returns normally. *)
Lemma sampling_mismatch_unchecked_when_nan :
  mode_ratio "6min" = Some 10 /\
  reaches "A" shower_with_gap (grid 3600 5) radar_hourly 1 (dec 1 10) "6min"
    0 ([], [], []) /\
  above_threshold shower_with_gap (dec 1 10) 0 = true /\
  scan_candidate 1 (dec 1 10) (skipn 0 shower_with_gap) 0 [] 0
    = Some (4, shower_with_gap, 2) /\
  getitem (grid 3600 5) (Z.of_nat 0) = OK 0%Z /\
  getitem (grid 3600 5) (Z.of_nat (0 + 4) - 1) = OK 10800%Z /\
  column_values (loc radar_hourly 0 10800) "A"
    = OK [dec 10 1; dec 20 1; dec 30 1; dec 40 1] /\
  length (removelast [dec 10 1; dec 20 1; dec 30 1; dec 40 1])
    <> 10 * length (firstn (length shower_with_gap - 2) shower_with_gap) /\
  isnan (mean (firstn (length shower_with_gap - 2) shower_with_gap)) = true /\
  select_events_single_station "A" shower_with_gap (grid 3600 5) radar_hourly 1
    (dec 1 10) "6min" = OK ([], [], []).
Proof.
  split; [reflexivity|]. split; [constructor|].
  repeat split; vm_compute; congruence.
Qed.

(** C9, as amended.  Every event the segmenter emits has
    [rain_intens_min <= rain_intens_avg <= rain_intens_max], none of them
    nan, and has [reflect_min <= reflect_avg <= reflect_max] whenever its
    [reflect_avg] is not nan.  In the merge of two events that both
    satisfy the two orderings and whose durations do not sum to zero,
    [reflect_min <= reflect_max] and [rain_intens_min <= rain_intens_max];
    the merged averages lie between them when the durations are
    non-negative and no operation of the two weighted means rounds. *)
Theorem event_statistics_ordered :
  (forall station vals datetime radar_df max_no_rain min_rain_threshold
          temporal_res events Zv Rv,
      select_events_single_station station vals datetime radar_df max_no_rain
        min_rain_threshold temporal_res = OK (events, Zv, Rv) ->
      Forall segmented_bounds events) /\
  (forall e1 e2,
      event_bounds e1 = true -> event_bounds e2 = true ->
      (duration e1 + duration e2 <> 0)%Z ->
      extremes_ordered (merge_two_events e1 e2)) /\
  (forall e1 e2,
      event_bounds e1 = true -> event_bounds e2 = true ->
      (0 <= duration e1)%Z -> (0 <= duration e2)%Z ->
      (0 < duration e1 + duration e2)%Z ->
      unrounded (reflect_avg e1) (reflect_avg e2) (duration e1) (duration e2) ->
      unrounded (rain_intens_avg e1) (rain_intens_avg e2) (duration e1) (duration e2) ->
      event_bounds (merge_two_events e1 e2) = true).
Proof.
  split; [|split].
  - intros. eapply emitted_events_bounds; eauto.
  - intros e1 e2 B1 B2 _. now apply merge_two_events_extremes.
  - apply merge_two_events_bounds.
Qed.

Lemma event_statistics_ordered_witness :
  (exists events Zv Rv,
      select_events_single_station "A" one_shower (grid 3600 2) radar_6min 0
        (dec 1 10) "6min" = OK (events, Zv, Rv) /\
      length events = 1 /\ Forall segmented_bounds events) /\
  extremes_ordered (merge_two_events tenth_one_hour tenth_two_hours) /\
  event_bounds (merge_two_events three_hours_a three_hours_b) = true.
Proof.
  destruct event_statistics_ordered as (H1 & H2 & H3). split; [|split].
  - eexists _, _, _. split; [vm_compute; reflexivity|]. split; [reflexivity|].
    eapply (H1 "A"%string one_shower (grid 3600 2) radar_6min 0%Z (dec 1 10) "6min"%string).
    vm_compute. reflexivity.
  - apply (H2 tenth_one_hour tenth_two_hours);
      [reflexivity | reflexivity | vm_compute; congruence].
  - apply (H3 three_hours_a three_hours_b).
    + reflexivity.
    + reflexivity.
    + vm_compute. congruence.
    + vm_compute. congruence.
    + reflexivity.
    + cbn. split; [reflexivity|]. split; [reflexivity|].
      split; [binary64_number 6%Z 0%Z|]. split; [binary64_number 9%Z 0%Z|].
      split; [binary64_number 15%Z 0%Z | binary64_number 5%Z (-1)%Z].
    + cbn. split; [reflexivity|]. split; [reflexivity|].
      split; [binary64_number 3%Z 0%Z|]. split; [binary64_number 9%Z 0%Z|].
      split; [binary64_number 12%Z 0%Z | binary64_number 2%Z 0%Z].
Defined.

(** The two events with statistics 0.1 are outputs of the segmenter. *)
Lemma tenth_events_from_segmenter :
  select_events_single_station "A" [double 1 10; dec 0 1; dec 0 1] (index rain_tenths)
    radar_tenths 0 (dec 1 20) "60min"
    = OK ([tenth_one_hour], [double 1 10], [double 1 10]) /\
  select_events_single_station "B" [double 1 10; double 1 10; dec 0 1] (index rain_tenths)
    radar_tenths 0 (dec 1 20) "60min"
    = OK ([tenth_two_hours], [double 1 10; double 1 10], [double 1 10; double 1 10]) /\
  duration tenth_one_hour = 1%Z /\ duration tenth_two_hours = 2%Z.
Proof. repeat split; vm_compute; reflexivity. Qed.

(** C9, as stated, fails for the merge of the two half-hour events: each
    satisfies both orderings, their durations are zero, and the merged
    averages are nan.  It fails as well for the merge of the one-hour and
    the two-hour event whose statistics are all 0.1: the merged averages
    are 0.10000000000000002, above the merged maxima 0.1. *)
Lemma merged_statistics_unordered :
  (event_bounds half_hour_a = true /\
   event_bounds half_hour_b = true /\
   reflect_bounds (merge_two_events half_hour_a half_hour_b) = false /\
   rain_bounds (merge_two_events half_hour_a half_hour_b) = false) /\
  (event_bounds tenth_one_hour = true /\
   event_bounds tenth_two_hours = true /\
   flt (reflect_max (merge_two_events tenth_one_hour tenth_two_hours))
       (reflect_avg (merge_two_events tenth_one_hour tenth_two_hours)) = true /\
   flt (rain_intens_max (merge_two_events tenth_one_hour tenth_two_hours))
       (rain_intens_avg (merge_two_events tenth_one_hour tenth_two_hours)) = true /\
   reflect_bounds (merge_two_events tenth_one_hour tenth_two_hours) = false /\
   rain_bounds (merge_two_events tenth_one_hour tenth_two_hours) = false).
Proof. repeat split; vm_compute; reflexivity. Qed.

(** C1: evaluation at the failing input.  On the hourly series
    [0.5, 0, 0.5, 0] with tolerance 0 the candidate started at index 0 is
    closed at [j = 1].  The value at index [j + 1 = 2] is above the
    threshold, and a candidate started there would be closed at index 3;
    but no iteration of the [while] runs at index 2, and the call returns
    the first shower only. *)
Theorem resume_skips_index_after_closure :
  scan_candidate 0 (dec 1 10) (skipn 0 two_showers) 0 [] 0
    = Some (1, [dec 1 2; dec 0 1], 1) /\
  above_threshold two_showers (dec 1 10) 2 = true /\
  scan_candidate 0 (dec 1 10) (skipn 2 two_showers) 0 [] 0
    = Some (1, [dec 1 2; dec 0 1], 1) /\
  (forall st, ~ reaches "A" two_showers (grid 3600 4) radar_hourly 0 (dec 1 10)
                  "60min" 2 st) /\
  exists e,
    select_events_single_station "A" two_showers (grid 3600 4) radar_hourly 0
      (dec 1 10) "60min" = OK ([e], [dec 10 1], [dec 1 2]) /\
    start_time e = 0%Z /\ end_time e = 3600%Z.
Proof.
  split; [reflexivity|]. split; [reflexivity|]. split; [reflexivity|]. split.
  - assert (H1 : forall st, ~ reaches "A" two_showers (grid 3600 4) radar_hourly 0
                               (dec 1 10) "60min" 1 st).
    { intros st H. remember 1 as n eqn:Hn. revert Hn.
      destruct H as [|i st _ _ Ha|i st _ _ _ Hs|i st k cand c st' _ _ _ _ _]; intros Hn.
      - discriminate.
      - assert (i = 0) as -> by lia. vm_compute in Ha. discriminate.
      - assert (i = 0) as -> by lia. vm_compute in Hs. discriminate.
      - lia. }
    intros st H. remember 2 as n eqn:Hn. revert Hn.
    destruct H as [|i st Hr _ _|i st Hr _ _ _|i st k cand c st' _ _ _ Hs _]; intros Hn.
    + discriminate.
    + assert (i = 1) as -> by lia. exact (H1 st Hr).
    + assert (i = 1) as -> by lia. exact (H1 st Hr).
    + assert (i = 0 /\ k = 0) as [-> ->] by lia. vm_compute in Hs. discriminate.
  - eexists. split; [vm_compute; reflexivity|]. split; reflexivity.
Qed.

(** C5: evaluation at the failing input.  With a radar table whose reading
    at 00:18 is nan, the segmenter in '6min' mode returns an event whose
    [reflect_avg] is nan, and so does the assembler. *)
Theorem nan_reflectivity_event_returned :
  (exists e Zv Rv,
      select_events_single_station "A" one_shower (grid 3600 2) radar_6min_gap 0
        (dec 1 10) "6min" = OK ([e], Zv, Rv) /\
      isnan (reflect_avg e) = true /\ has_nan e = true) /\
  (exists e Zm Rv,
      select_all_events rain_one_shower radar_6min_gap 0 (dec 1 10)
        = OK ([e], Zm, Rv) /\
      isnan (reflect_avg e) = true /\ has_nan e = true).
Proof.
  split; eexists _, _, _; (split; [vm_compute; reflexivity|]); split; reflexivity.
Qed.

(* ================================================================== *)
(** ** plot_single_events and merge_overlapping_events *)

Lemma insert_by_start_length e sorted :
  length (insert_by_start e sorted) = S (length sorted).
Proof.
  induction sorted as [|x rest IH]; cbn; [reflexivity|].
  destruct (start_time e <=? start_time x)%Z; cbn; auto.
Qed.

Lemma sort_by_start_length events :
  length (sort_by_start events) = length events.
Proof.
  unfold sort_by_start.
  induction events as [|e events IH]; cbn [fold_right length]; [reflexivity|].
  now rewrite insert_by_start_length, IH.
Qed.

(** The plotting loop completes exactly when every index of its range is
    an index of the list. *)
Lemma plot_loop_seq events n : forall a,
  plot_loop events (seq a n) =
  if ((n =? 0) || (a + n <=? length events))%nat then OK tt else Raise IndexError.
Proof.
  induction n as [|n IH]; intros a; cbn [seq plot_loop]; [reflexivity|].
  rewrite getitem_nat.
  destruct (nth_error events a) as [e|] eqn:E; cbn [from_option bind].
  - rewrite IH. assert (Ha : a < length events) by (apply nth_error_Some; congruence).
    destruct n as [|n]; cbn [Nat.eqb orb].
    + destruct (Nat.leb_spec (a + 1) (length events)); [reflexivity | lia].
    + destruct (Nat.leb_spec (S a + S n) (length events));
        destruct (Nat.leb_spec (a + S (S n)) (length events)); try reflexivity; lia.
  - apply nth_error_None in E. cbn [Nat.eqb orb].
    destruct (Nat.leb_spec (a + S n) (length events)); [lia | reflexivity].
Qed.

Lemma plot_single_events_spec events :
  plot_single_events events =
  if (100 <=? length events)%nat then OK tt else Raise IndexError.
Proof. unfold plot_single_events. now rewrite plot_loop_seq. Qed.

Lemma insert_by_start_Forall (P : Event -> Prop) e sorted :
  P e -> Forall P sorted -> Forall P (insert_by_start e sorted).
Proof.
  intros He. induction 1 as [|x rest Hx Hrest IH]; cbn.
  - now repeat constructor.
  - destruct (start_time e <=? start_time x)%Z; repeat constructor; auto.
Qed.

Lemma insert_by_start_sorted e sorted :
  StronglySorted by_start sorted -> StronglySorted by_start (insert_by_start e sorted).
Proof.
  induction 1 as [|x rest Hs IH Hx]; cbn.
  - constructor; constructor.
  - destruct (Z.leb_spec (start_time e) (start_time x)) as [Hle|Hgt].
    + constructor; [now constructor|]. constructor; [exact Hle|].
      eapply Forall_impl; [|exact Hx]. unfold by_start. intros y Hy. lia.
    + constructor; [exact IH|].
      apply insert_by_start_Forall; [unfold by_start; lia | exact Hx].
Qed.

Lemma sort_by_start_sorted events : StronglySorted by_start (sort_by_start events).
Proof.
  unfold sort_by_start. induction events as [|e events IH]; cbn [fold_right].
  - constructor.
  - now apply insert_by_start_sorted.
Qed.

Lemma chain_snoc R init l e :
  chain R (init ++ [l]) -> R l e -> chain R ((init ++ [l]) ++ [e]).
Proof.
  induction init as [|a init IH]; intros Hc Hr; [cbn; auto|].
  destruct init as [|b init]; cbn in *; [tauto|].
  destruct Hc as [Hab Hc]. split; [exact Hab|]. now apply IH.
Qed.

Lemma chain_replace_last R init l l' :
  chain R (init ++ [l]) -> (forall x, R x l -> R x l') -> chain R (init ++ [l']).
Proof.
  induction init as [|a init IH]; intros Hc Hr; [cbn; auto|].
  destruct init as [|b init]; cbn in *; [split; [apply Hr|]; tauto|].
  destruct Hc as [Hab Hc]. split; [exact Hab|]. now apply IH.
Qed.

Lemma getitem_last {A} (init : list A) (l : A) : getitem (init ++ [l]) (-1) = OK l.
Proof.
  unfold getitem. rewrite length_app. cbn [length].
  destruct (Z.leb_spec 0 (-1)) as [H|_]; [lia|].
  destruct (Z.leb_spec 0 (Z.of_nat (length init + 1) + -1)) as [_|H]; [|lia].
  replace (Z.to_nat (Z.of_nat (length init + 1) + -1)) with (length init) by lia.
  rewrite nth_error_app2 by lia. now rewrite Nat.sub_diag.
Qed.

Lemma merge_step_last init l e :
  merge_step (init ++ [l]) e =
  OK (if (start_time e <=? end_time l)%Z then init ++ [merge_two_events l e]
      else (init ++ [l]) ++ [e]).
Proof.
  unfold merge_step. rewrite getitem_last. cbn [bind].
  rewrite removelast_last. now destruct (start_time e <=? end_time l)%Z.
Qed.

(** On a list sorted by start time the merging loop returns, and its
    result is ordered by start time with consecutive entries apart. *)
Lemma merge_loop_separated events : forall init l,
  StronglySorted by_start events -> Forall (by_start l) events ->
  chain by_start (init ++ [l]) -> chain apart (init ++ [l]) ->
  exists merged, merge_loop (init ++ [l]) events = OK merged /\
                 chain by_start merged /\ chain apart merged.
Proof.
  induction events as [|e events IH]; intros init l Hs Hl Hb Ha; cbn [merge_loop].
  - eauto.
  - rewrite merge_step_last. cbn [bind].
    apply StronglySorted_inv in Hs as [Hs He].
    inversion Hl as [|? ? Hle Hl']; subst. unfold by_start in Hle.
    destruct (Z.leb_spec (start_time e) (end_time l)) as [Hov|Hgap].
    + apply IH; auto.
      * eapply Forall_impl; [|exact Hl']. unfold by_start. cbn. intros y Hy. lia.
      * eapply chain_replace_last; [exact Hb|]. unfold by_start. cbn. intros x Hx. lia.
      * eapply chain_replace_last; [exact Ha|]. unfold apart. cbn. intros x Hx. lia.
    + apply IH; auto.
      * now apply chain_snoc.
      * now apply chain_snoc.
Qed.

(** From 100 events on, [merge_overlapping_events] returns the events
    ordered by start time with no two consecutive entries overlapping. *)
Lemma merge_overlapping_events_hundred events :
  100 <= length events ->
  exists merged, merge_overlapping_events events = OK merged /\
                 chain by_start merged /\ chain apart merged.
Proof.
  intros Hlen. unfold merge_overlapping_events.
  rewrite plot_single_events_spec, sort_by_start_length.
  destruct (Nat.leb_spec 100 (length events)) as [_|H]; [|lia]. cbn [bind].
  pose proof (sort_by_start_sorted events) as Hs.
  pose proof (sort_by_start_length events) as Hl.
  destruct (sort_by_start events) as [|first rest]; [cbn in Hl; lia|].
  cbn [getitem length nth_error skipn from_option bind Z.to_nat Z.leb Z.compare].
  apply StronglySorted_inv in Hs as [Hs Hf].
  apply (merge_loop_separated rest [] first); cbn; auto.
Qed.

(** C10.  A list of fewer than 100 events makes
    [merge_overlapping_events] fail with IndexError, raised by the indexing
    in [plot_single_events]; whenever the merger returns a list, it was
    given at least 100 events. *)
Theorem merge_needs_hundred_events (events : list Event) :
  (length events < 100 -> merge_overlapping_events events = Raise IndexError) /\
  (forall merged, merge_overlapping_events events = OK merged ->
                  100 <= length events).
Proof.
  assert (H : length events < 100 -> merge_overlapping_events events = Raise IndexError).
  { intros Hlen. unfold merge_overlapping_events.
    rewrite plot_single_events_spec, sort_by_start_length.
    destruct (Nat.leb_spec 100 (length events)); [lia | reflexivity]. }
  split; [exact H|]. intros merged Hm.
  destruct (Nat.lt_ge_cases (length events) 100) as [Hlt|Hge]; [|exact Hge].
  rewrite (H Hlt) in Hm. discriminate.
Qed.

Lemma merge_needs_hundred_events_witness :
  merge_overlapping_events [three_hours_a; three_hours_b] = Raise IndexError /\
  100 <= length (repeat three_hours_a 100).
Proof.
  split.
  - apply (merge_needs_hundred_events [three_hours_a; three_hours_b]). cbn. lia.
  - eapply (merge_needs_hundred_events (repeat three_hours_a 100)).
    vm_compute. reflexivity.
Defined.

(** C2: evaluation at the failing input.  Two overlapping events are not
    merged: the call fails with IndexError. *)
Theorem merge_two_overlapping_fails :
  (start_time three_hours_b <= end_time three_hours_a)%Z /\
  merge_overlapping_events [three_hours_a; three_hours_b] = Raise IndexError /\
  merge_overlapping_events [three_hours_a] = Raise IndexError.
Proof. repeat split; vm_compute; congruence. Qed.

(* ================================================================== *)
(** ** select_all_events *)

Lemma bool_index_filter {A} (f : A -> bool) (xs : list A) :
  bool_index (map f xs) xs = OK (filter f xs).
Proof.
  induction xs as [|x xs IH]; cbn; [reflexivity|].
  rewrite IH. cbn. now destruct (f x).
Qed.

Lemma bool_index_same_length {A B} (mask : list bool) :
  forall (xs : list A) (ys : list B) xs' ys',
    bool_index mask xs = OK xs' -> bool_index mask ys = OK ys' ->
    length xs' = length ys'.
Proof.
  induction mask as [|m mask IH]; intros [|x xs] [|y ys] xs' ys' Hx Hy;
    cbn in Hx, Hy; try discriminate.
  - injection Hx as <-. injection Hy as <-. reflexivity.
  - destruct (bool_index mask xs) as [rx|] eqn:Ex; cbn in Hx; [|discriminate].
    destruct (bool_index mask ys) as [ry|] eqn:Ey; cbn in Hy; [|discriminate].
    injection Hx as <-. injection Hy as <-.
    specialize (IH xs ys rx ry Ex Ey). destruct m; cbn; congruence.
Qed.

Lemma bool_index_Forall {A} (P : A -> Prop) (mask : list bool) :
  forall (xs xs' : list A),
    bool_index mask xs = OK xs' -> Forall P xs -> Forall P xs'.
Proof.
  induction mask as [|m mask IH]; intros [|x xs] xs' Hx HP; cbn in Hx; try discriminate.
  - now injection Hx as <-.
  - destruct (bool_index mask xs) as [rx|] eqn:Ex; cbn in Hx; [|discriminate].
    injection Hx as <-. inversion HP as [|? ? Hx' Hxs]; subst.
    specialize (IH xs rx Ex Hxs). destruct m; [constructor|]; assumption.
Qed.

Lemma filter_Forall {A} (f : A -> bool) (xs : list A) :
  Forall (fun x => f x = true) (filter f xs).
Proof. apply Forall_forall. intros x Hx. now apply filter_In in Hx. Qed.

Lemma clean_of_flags x : nonzero x = true -> notnan x = true -> clean x.
Proof.
  unfold nonzero, notnan, fne, clean. rewrite !negb_true_iff. auto.
Qed.

Lemma clean_rows (rows : list (list float)) :
  Forall (fun row => forallb nonzero row = true) rows ->
  Forall (fun row => forallb notnan row = true) rows ->
  Forall (Forall clean) rows.
Proof.
  rewrite !Forall_forall. intros Hz Hn row Hrow. apply Forall_forall. intros x Hx.
  specialize (Hz row Hrow). specialize (Hn row Hrow).
  rewrite forallb_forall in Hz, Hn. apply clean_of_flags; auto.
Qed.

Ltac bind_ok H x E :=
  match type of H with
  | bind ?r _ = OK _ => destruct r as [x|] eqn:E; cbn [bind] in H; [|discriminate]
  end.

(** C7.  Whenever [select_all_events] returns, the reflectivity rows and
    the rain values it returns are equally many, no entry of a row is zero
    or nan, and no rain value is zero or nan. *)
Theorem select_all_events_clean
    (rain_df radar_df : DataFrame) (max_no_rain : Z) (min_rain_threshold : float)
    (events : list Event) (Zm : list (list float)) (Rv : list float) :
  select_all_events rain_df radar_df max_no_rain min_rain_threshold
    = OK (events, Zm, Rv) ->
  length Zm = length Rv /\ Forall (Forall clean) Zm /\ Forall clean Rv.
Proof.
  unfold select_all_events. intros H.
  bind_ok H st E0. destruct st as [[ev Z0] R0].
  bind_ok H ev' E1. bind_ok H Zm0 E2.
  destruct (negb (length Zm0 =? length R0)%nat); [discriminate|].
  bind_ok H R1 E3. rewrite bool_index_filter in H. cbn [bind] in H.
  set (Z1 := filter (forallb nonzero) Zm0) in *.
  bind_ok H R2 E4. rewrite bool_index_filter in H. cbn [bind] in H.
  set (Z2 := filter (forallb notnan) Z1) in *.
  bind_ok H Z3 E5. rewrite bool_index_filter in H. cbn [bind] in H.
  bind_ok H Z4 E6. rewrite bool_index_filter in H. cbn [bind] in H.
  injection H as <- <- <-.
  assert (HZ2 : Forall (Forall clean) Z2).
  { apply clean_rows.
    - unfold Z2. apply Forall_forall. intros row Hrow.
      apply filter_In in Hrow as [Hrow _].
      pose proof (filter_Forall (forallb nonzero) Zm0) as F.
      rewrite Forall_forall in F. now apply F.
    - apply filter_Forall. }
  split; [|split].
  - eapply bool_index_same_length; [exact E6 | apply bool_index_filter].
  - eapply bool_index_Forall; [exact E6|].
    eapply bool_index_Forall; [exact E5 | exact HZ2].
  - apply Forall_forall. intros x Hx.
    apply filter_In in Hx as [Hx Hn]. apply filter_In in Hx as [_ Hz].
    now apply clean_of_flags.
Qed.

Lemma select_all_events_clean_witness :
  exists events Zm Rv,
    select_all_events rain_one_shower radar_6min 0 (dec 1 10) = OK (events, Zm, Rv) /\
    length events = 1 /\ length Rv = 1 /\
    length Zm = length Rv /\ Forall (Forall clean) Zm /\ Forall clean Rv.
Proof.
  eexists _, _, _. split; [vm_compute; reflexivity|].
  split; [reflexivity|]. split; [reflexivity|].
  eapply (select_all_events_clean rain_one_shower radar_6min 0 (dec 1 10)).
  vm_compute. reflexivity.
Defined.

(* ================================================================== *)
(** * Further properties *)

(** ** Event *)

Lemma constructed_Event_init t0 t1 sts zmin zavg zmax rmin ravg rmax :
  constructed (Event_init t0 t1 sts zmin zavg zmax rmin ravg rmax).
Proof. reflexivity. Qed.

Lemma constructed_fields e :
  constructed e ->
  duration e = ((end_time e - start_time e) / 3600)%Z /\
  num_stations e = length (stations e) /\
  type e = (if (rain_intens_avg e <=? Fin 5%Q)%py then light
            else if (rain_intens_avg e <=? Fin 25%Q)%py then moderate
            else if (rain_intens_avg e <=? Fin 50%Q)%py then heavy
            else extreme).
Proof. intros H. rewrite H. cbn. auto. Qed.

(** X1.  The type of a constructed event grows with its
    [rain_intens_avg]: an event whose average compares at most equal to
    another's is never of a more severe type; and an event whose average is
    nan is of type extreme. *)
Theorem event_type_monotone (e1 e2 : Event) :
  constructed e1 -> constructed e2 ->
  (fle (rain_intens_avg e1) (rain_intens_avg e2) = true ->
   severity (type e1) <= severity (type e2)) /\
  (isnan (rain_intens_avg e1) = true -> type e1 = extreme).
Proof.
  intros C1 C2.
  destruct (constructed_fields e1 C1) as (_ & _ & T1).
  destruct (constructed_fields e2 C2) as (_ & _ & T2).
  rewrite T1, T2. split.
  - intros Hle. apply fle_true_inv in Hle as (a & b & -> & -> & Hab).
    cbn [fle].
    destruct (Qle_bool a 5) eqn:A5; [cbn; lia|].
    destruct (Qle_bool b 5) eqn:B5.
    { apply Qle_bool_iff in B5. apply not_true_iff_false in A5.
      exfalso. apply A5. apply Qle_bool_iff. lra. }
    destruct (Qle_bool a 25) eqn:A25; [destruct (Qle_bool b 25), (Qle_bool b 50); cbn; lia|].
    destruct (Qle_bool b 25) eqn:B25.
    { apply Qle_bool_iff in B25. apply not_true_iff_false in A25.
      exfalso. apply A25. apply Qle_bool_iff. lra. }
    destruct (Qle_bool a 50) eqn:A50; [destruct (Qle_bool b 50); cbn; lia|].
    destruct (Qle_bool b 50) eqn:B50; [|cbn; lia].
    apply Qle_bool_iff in B50. apply not_true_iff_false in A50.
    exfalso. apply A50. apply Qle_bool_iff. lra.
  - destruct (rain_intens_avg e1); [reflexivity | discriminate].
Qed.

Lemma event_type_monotone_witness :
  severity (type three_hours_a) <= severity (type three_hours_b) /\
  type (Event_init 0 3600 ["A"%string] NaN NaN NaN NaN NaN NaN) = extreme.
Proof.
  split.
  - apply (event_type_monotone three_hours_a three_hours_b); reflexivity.
  - apply (event_type_monotone (Event_init 0 3600 ["A"%string] NaN NaN NaN NaN NaN NaN)
             three_hours_b); reflexivity.
Defined.

(** X2.  The duration of a constructed event is the number of whole hours
    from its start to its end, rounded down: it is negative exactly when
    the event ends before it starts, and zero for an extent under an hour. *)
Theorem duration_whole_hours (e : Event) :
  constructed e ->
  (3600 * duration e <= end_time e - start_time e < 3600 * duration e + 3600)%Z /\
  ((0 <= duration e)%Z <-> (start_time e <= end_time e)%Z) /\
  ((duration e = 0)%Z <-> (0 <= end_time e - start_time e < 3600)%Z).
Proof.
  intros C. destruct (constructed_fields e C) as (D & _ & _). rewrite D.
  set (x := (end_time e - start_time e)%Z).
  pose proof (Z.div_mod x 3600 ltac:(lia)) as Hdm.
  pose proof (Z.mod_pos_bound x 3600 ltac:(lia)) as Hb.
  repeat split; try lia.
Qed.

Lemma duration_whole_hours_witness :
  (3600 * duration half_hour_a <= end_time half_hour_a - start_time half_hour_a
     < 3600 * duration half_hour_a + 3600)%Z /\
  ((0 <= duration half_hour_a)%Z <-> (start_time half_hour_a <= end_time half_hour_a)%Z) /\
  ((duration half_hour_a = 0)%Z <->
   (0 <= end_time half_hour_a - start_time half_hour_a < 3600)%Z).
Proof. apply duration_whole_hours. reflexivity. Defined.

(* ================================================================== *)
(** ** merge_two_events *)

(** X3.  When the durations of two constructed events do not sum to
    zero, their merge is a constructed event whose window contains both
    windows, whose duration is at least either duration, and whose stations
    are those of the first followed by those of the second. *)
Theorem merge_two_events_covers (e1 e2 : Event) :
  constructed e1 -> constructed e2 ->
  (duration e1 + duration e2 <> 0)%Z ->
  constructed (merge_two_events e1 e2) /\
  covers (merge_two_events e1 e2) e1 /\
  covers (merge_two_events e1 e2) e2 /\
  (duration e1 <= duration (merge_two_events e1 e2))%Z /\
  (duration e2 <= duration (merge_two_events e1 e2))%Z /\
  stations (merge_two_events e1 e2) = stations e1 ++ stations e2 /\
  num_stations (merge_two_events e1 e2) = num_stations e1 + num_stations e2.
Proof.
  intros C1 C2 _.
  destruct (constructed_fields e1 C1) as (D1 & N1 & _).
  destruct (constructed_fields e2 C2) as (D2 & N2 & _).
  split; [apply constructed_Event_init|].
  unfold covers. cbn [merge_two_events Event_init start_time end_time duration
                      stations num_stations].
  rewrite D1, D2, N1, N2, length_app.
  repeat split; try lia; apply Z.div_le_mono; lia.
Qed.

Lemma merge_two_events_covers_witness :
  constructed (merge_two_events three_hours_a three_hours_b) /\
  covers (merge_two_events three_hours_a three_hours_b) three_hours_a /\
  covers (merge_two_events three_hours_a three_hours_b) three_hours_b /\
  (duration three_hours_a <= duration (merge_two_events three_hours_a three_hours_b))%Z /\
  (duration three_hours_b <= duration (merge_two_events three_hours_a three_hours_b))%Z /\
  stations (merge_two_events three_hours_a three_hours_b)
    = stations three_hours_a ++ stations three_hours_b /\
  num_stations (merge_two_events three_hours_a three_hours_b)
    = num_stations three_hours_a + num_stations three_hours_b.
Proof.
  apply (merge_two_events_covers three_hours_a three_hours_b);
    [reflexivity | reflexivity | vm_compute; congruence].
Defined.

(* ================================================================== *)
(** ** merge_overlapping_events *)

Lemma covers_refl e : covers e e.
Proof. unfold covers. lia. Qed.

Lemma covers_trans a b c : covers a b -> covers b c -> covers a c.
Proof. unfold covers. lia. Qed.

Lemma merge_two_events_covers_left l e : covers (merge_two_events l e) l.
Proof. unfold covers. cbn. lia. Qed.

Lemma merge_two_events_covers_right l e : covers (merge_two_events l e) e.
Proof. unfold covers. cbn. lia. Qed.

Lemma insert_by_start_In x e sorted :
  In x (insert_by_start e sorted) <-> x = e \/ In x sorted.
Proof.
  induction sorted as [|y rest IH]; cbn.
  - intuition.
  - destruct (start_time e <=? start_time y)%Z; cbn; [intuition|].
    rewrite IH. intuition.
Qed.

Lemma sort_by_start_In x events : In x (sort_by_start events) <-> In x events.
Proof.
  unfold sort_by_start. induction events as [|e events IH]; cbn [fold_right]; [tauto|].
  rewrite insert_by_start_In, IH. cbn. intuition.
Qed.

(** What the merging loop keeps, whatever the order of its input. *)
Lemma merge_loop_facts events : forall init l,
  exists merged,
    merge_loop (init ++ [l]) events = OK merged /\
    1 <= length merged <= length init + 1 + length events /\
    flat_map stations merged
      = flat_map stations (init ++ [l]) ++ flat_map stations events /\
    (forall x, (exists r, In r (init ++ [l]) /\ covers r x) \/ In x events ->
               exists m, In m merged /\ covers m x).
Proof.
  induction events as [|e events IH]; intros init l; cbn [merge_loop].
  - exists (init ++ [l]). rewrite length_app, app_nil_r. cbn.
    repeat split; try lia. intros x [H|[]]. exact H.
  - rewrite merge_step_last. cbn [bind].
    destruct (start_time e <=? end_time l)%Z.
    + destruct (IH init (merge_two_events l e)) as (merged & -> & Hlen & Hst & Hcov).
      exists merged. split; [reflexivity|]. split; [cbn; lia|]. split.
      * rewrite Hst, !flat_map_app. cbn. now rewrite !app_nil_r, <- !app_assoc.
      * intros x [(r & Hr & Hrx)|[->|Hx]]; apply Hcov; auto.
        -- left. apply in_app_or in Hr as [Hr|[<-|[]]].
           ++ exists r. split; [apply in_or_app; now left | exact Hrx].
           ++ exists (merge_two_events l e). split; [apply in_or_app; right; now left|].
              eapply covers_trans; [apply merge_two_events_covers_left | exact Hrx].
        -- left. exists (merge_two_events l x).
           split; [apply in_or_app; right; now left | apply merge_two_events_covers_right].
    + destruct (IH (init ++ [l]) e) as (merged & -> & Hlen & Hst & Hcov).
      exists merged. split; [reflexivity|]. split; [rewrite length_app in Hlen; cbn in *; lia|].
      split.
      * rewrite Hst, !flat_map_app. cbn. now rewrite !app_nil_r, <- !app_assoc.
      * intros x [(r & Hr & Hrx)|[->|Hx]]; apply Hcov; auto.
        -- left. exists r. split; [apply in_or_app; now left | exact Hrx].
        -- left. exists x. split; [apply in_or_app; right; now left | apply covers_refl].
Qed.

(** A call that returns has passed the plot, and returns what the loop
    makes of the sorted list. *)
Lemma merge_overlapping_events_OK events merged :
  merge_overlapping_events events = OK merged ->
  100 <= length events /\
  exists first rest,
    sort_by_start events = first :: rest /\ merge_loop ([] ++ [first]) rest = OK merged.
Proof.
  unfold merge_overlapping_events.
  rewrite plot_single_events_spec, sort_by_start_length.
  destruct (Nat.leb_spec 100 (length events)) as [Hlen|_]; [|discriminate].
  cbn [bind]. intros H. split; [exact Hlen|].
  destruct (sort_by_start events) as [|first rest]; [discriminate|].
  exists first, rest. split; [reflexivity | exact H].
Qed.

(** X4.  Whenever [merge_overlapping_events] returns, the returned events
    are ordered by start time, every entry starts after the entry before
    it has ended, and there are at least one and at most as many entries
    as input events. *)
Theorem merged_events_ordered_apart (events merged : list Event) :
  merge_overlapping_events events = OK merged ->
  chain by_start merged /\ chain apart merged /\
  1 <= length merged <= length events.
Proof.
  intros H. apply merge_overlapping_events_OK in H as (_ & first & rest & Hs & Hm).
  pose proof (sort_by_start_sorted events) as Hsorted.
  pose proof (sort_by_start_length events) as Hl.
  rewrite Hs in Hsorted, Hl. apply StronglySorted_inv in Hsorted as [Hsr Hf].
  destruct (merge_loop_separated rest [] first Hsr Hf) as (m1 & Hm1 & Hb & Ha);
    [exact I | exact I |].
  destruct (merge_loop_facts rest [] first) as (m2 & Hm2 & Hlen & _).
  rewrite Hm in Hm1, Hm2. injection Hm1 as <-. injection Hm2 as <-.
  cbn in Hl, Hlen. repeat split; auto; lia.
Qed.

Lemma merged_events_ordered_apart_witness :
  exists merged,
    merge_overlapping_events (repeat three_hours_a 99 ++ [half_hour_b]) = OK merged /\
    chain by_start merged /\ chain apart merged /\
    1 <= length merged <= length (repeat three_hours_a 99 ++ [half_hour_b]).
Proof.
  eexists. split; [vm_compute; reflexivity|].
  apply (merged_events_ordered_apart (repeat three_hours_a 99 ++ [half_hour_b])).
  vm_compute. reflexivity.
Defined.

(** X5.  Whenever [merge_overlapping_events] returns, the window of every
    input event is contained in the window of one of the returned events. *)
Theorem merged_events_cover_inputs (events merged : list Event) :
  merge_overlapping_events events = OK merged ->
  forall e, In e events -> exists m, In m merged /\ covers m e.
Proof.
  intros H e He. apply merge_overlapping_events_OK in H as (_ & first & rest & Hs & Hm).
  destruct (merge_loop_facts rest [] first) as (m2 & Hm2 & _ & _ & Hcov).
  rewrite Hm in Hm2. injection Hm2 as <-. apply Hcov.
  apply sort_by_start_In in He. rewrite Hs in He. destruct He as [<-|He].
  - left. exists first. split; [now left | apply covers_refl].
  - now right.
Qed.

Lemma merged_events_cover_inputs_witness :
  exists merged m,
    merge_overlapping_events (repeat three_hours_a 99 ++ [half_hour_b]) = OK merged /\
    In m merged /\ covers m half_hour_b.
Proof.
  destruct (merge_overlapping_events (repeat three_hours_a 99 ++ [half_hour_b]))
    as [merged|] eqn:E; [|vm_compute in E; discriminate].
  destruct (merged_events_cover_inputs _ merged E half_hour_b) as (m & Hm & Hc).
  - apply in_or_app. right. now left.
  - exists merged, m. auto.
Defined.

(** X6.  Whenever [merge_overlapping_events] returns, the station lists of
    the returned events, read in order, are the station lists of the input
    events read in the order of the sort: no station is lost, repeated or
    moved. *)
Theorem merged_events_keep_stations (events merged : list Event) :
  merge_overlapping_events events = OK merged ->
  flat_map stations merged = flat_map stations (sort_by_start events).
Proof.
  intros H. apply merge_overlapping_events_OK in H as (_ & first & rest & Hs & Hm).
  destruct (merge_loop_facts rest [] first) as (m2 & Hm2 & _ & Hst & _).
  rewrite Hm in Hm2. injection Hm2 as <-. rewrite Hst, Hs. cbn.
  now rewrite app_nil_r.
Qed.

Lemma merged_events_keep_stations_witness :
  exists merged,
    merge_overlapping_events (repeat three_hours_a 99 ++ [half_hour_b]) = OK merged /\
    flat_map stations merged
      = flat_map stations (sort_by_start (repeat three_hours_a 99 ++ [half_hour_b])).
Proof.
  eexists. split; [vm_compute; reflexivity|].
  apply merged_events_keep_stations. vm_compute. reflexivity.
Defined.

(* ================================================================== *)
(** ** select_events_single_station: edge behaviour *)

Lemma below_count_skipn thr vals i :
  below_count thr (skipn i vals) <= below_count thr vals.
Proof.
  unfold below_count. revert i. induction vals as [|v vals IH]; intros [|i]; cbn; auto.
  destruct (negb (fge v thr)); cbn; specialize (IH i); lia.
Qed.

Section SegmenterEdges.

Variable station : string.
Variable vals : list float.
Variable datetime : list Z.
Variable radar_df : DataFrame.
Variable max_no_rain : Z.
Variable min_rain_threshold : float.
Variable temporal_res : string.

Local Abbreviation scan := (scan_candidate max_no_rain min_rain_threshold).
Local Abbreviation close := (close_candidate station datetime radar_df max_no_rain temporal_res).
Local Abbreviation loop := (while_loop station vals datetime radar_df max_no_rain
                    min_rain_threshold temporal_res).
Local Abbreviation above := (above_threshold vals min_rain_threshold).
Local Abbreviation run := (select_events_single_station station vals datetime radar_df
                    max_no_rain min_rain_threshold temporal_res).
Local Abbreviation reached := (reaches station vals datetime radar_df max_no_rain
                    min_rain_threshold temporal_res).

(** Without a closure the loop hands back its accumulators. *)
Lemma while_loop_no_closure :
  (forall i, above i = true -> scan (skipn i vals) 0 [] 0 = None) ->
  forall i st, loop i st = OK st.
Proof.
  intros Hnone i. remember (length vals - i) as n eqn:Hn.
  revert i Hn. induction n as [n IH] using lt_wf_ind. intros i Hn st.
  rewrite while_loop_step. destruct (Nat.ltb_spec i (length vals)) as [Hi|Hi]; [|reflexivity].
  destruct (above i) eqn:Ha.
  - rewrite (Hnone i Ha). apply (IH (length vals - (i + 1))); lia.
  - apply (IH (length vals - (i + 1))); lia.
Qed.

(** The run of below-threshold values at a [break] is made of values of
    the series. *)
Lemma scan_candidate_below rest : forall k cand c k' cand' c',
  scan rest k cand c = Some (k', cand', c') ->
  c' <= c + below_count min_rain_threshold rest.
Proof.
  unfold below_count.
  induction rest as [|v rest IH]; intros k cand c k' cand' c' H;
    cbn [scan_candidate] in H; [discriminate|].
  cbn [filter]. destruct (fge v min_rain_threshold) eqn:Ev; cbn [negb].
  - apply IH in H. lia.
  - destruct (Z.of_nat (S c) >? max_no_rain)%Z.
    + injection H as _ _ <-. cbn. lia.
    + apply IH in H. cbn. lia.
Qed.

(** The loop continued from an iteration head ends at an iteration head. *)
Lemma while_loop_reaches i st st' :
  reached i st -> loop i st = OK st' -> exists n, reached n st' /\ length vals <= n.
Proof.
  remember (length vals - i) as n eqn:Hn.
  revert i Hn st. induction n as [n IH] using lt_wf_ind. intros i Hn st Hr.
  rewrite while_loop_step. destruct (Nat.ltb_spec i (length vals)) as [Hi|Hi].
  - destruct (above i) eqn:Ha.
    + destruct (scan (skipn i vals) 0 [] 0) as [[[k cand] c]|] eqn:Hs.
      * destruct (close i (i + k) c cand st) as [st1|] eqn:Hc; cbn [bind]; [|discriminate].
        apply (IH (length vals - (i + k + 1 + 1))); [lia | reflexivity |].
        eapply reaches_closed; eauto.
      * apply (IH (length vals - (i + 1))); [lia | reflexivity |].
        now apply reaches_open.
    + apply (IH (length vals - (i + 1))); [lia | reflexivity |].
      now apply reaches_below.
  - intros [= <-]. eauto.
Qed.

Lemma run_reaches st' :
  run = OK st' -> exists n, reached n st' /\ length vals <= n.
Proof. apply while_loop_reaches. constructor. Qed.

End SegmenterEdges.

(** X7.  A series without a value at or above the threshold (an empty
    series, a dry series, a series of nan) yields no event and no sample,
    whatever the timestamps, the radar table, the tolerance and the mode:
    neither table is read. *)
Theorem dry_series_yields_nothing
    (station : string) (vals : list float) (datetime : list Z)
    (radar_df : DataFrame) (max_no_rain : Z) (min_rain_threshold : float)
    (temporal_res : string) :
  Forall (fun v => fge v min_rain_threshold = false) vals ->
  select_events_single_station station vals datetime radar_df max_no_rain
    min_rain_threshold temporal_res = OK ([], [], []).
Proof.
  intros Hdry. apply while_loop_no_closure. intros i Ha.
  unfold above_threshold in Ha.
  destruct (nth_error vals i) as [v|] eqn:E; [|discriminate].
  apply nth_error_In in E. rewrite Forall_forall in Hdry.
  rewrite (Hdry v E) in Ha. discriminate.
Qed.

Lemma dry_series_yields_nothing_witness :
  select_events_single_station "A" [dec 1 20; NaN; dec 0 1] [] (mkDataFrame [] [])
    0 (dec 1 10) "6min" = OK ([], [], []).
Proof.
  apply dry_series_yields_nothing. repeat constructor.
Defined.

(** X8.  A series with at most [max_no_rain] values that are not at or
    above the threshold yields no event and no sample: no candidate is ever
    closed, so a shower that is still open when the series ends is not
    reported. *)
Theorem open_candidates_yield_nothing
    (station : string) (vals : list float) (datetime : list Z)
    (radar_df : DataFrame) (max_no_rain : Z) (min_rain_threshold : float)
    (temporal_res : string) :
  (Z.of_nat (below_count min_rain_threshold vals) <= max_no_rain)%Z ->
  select_events_single_station station vals datetime radar_df max_no_rain
    min_rain_threshold temporal_res = OK ([], [], []).
Proof.
  intros Hfew. apply while_loop_no_closure. intros i Ha.
  destruct (scan_candidate max_no_rain min_rain_threshold (skipn i vals) 0 [] 0)
    as [[[k cand] c]|] eqn:Hs; [|reflexivity].
  exfalso.
  pose proof (scan_candidate_below _ _ _ _ _ _ _ _ _ Hs) as Hc.
  destruct (scan_from_start vals max_no_rain min_rain_threshold i k cand c Ha Hs)
    as (_ & _ & HG & _).
  pose proof (below_count_skipn min_rain_threshold vals i). lia.
Qed.

Lemma open_candidates_yield_nothing_witness :
  select_events_single_station "A" [dec 1 2; dec 0 1; dec 1 2; dec 0 1] (grid 3600 4)
    radar_hourly 2 (dec 1 10) "60min" = OK ([], [], []).
Proof.
  apply open_candidates_yield_nothing. vm_compute. discriminate.
Defined.

Lemma lookup_column_loc cols idx a b station :
  lookup_column cols station = Raise KeyError ->
  lookup_column (map (fun c => (fst c, loc_rows idx a b (snd c))) cols) station
    = Raise KeyError.
Proof.
  induction cols as [|[name col] cols IH]; cbn; [reflexivity|].
  destruct (name =? station)%string; [discriminate | exact IH].
Qed.

Lemma getitem_out_of_range {A} (xs : list A) (k : Z) :
  (Z.of_nat (length xs) <= k)%Z -> getitem xs k = Raise IndexError.
Proof.
  intros Hk. unfold getitem.
  destruct (Z.leb_spec 0 k) as [_|H]; [|lia].
  destruct (nth_error xs (Z.to_nat k)) eqn:E; [|reflexivity].
  assert (Z.to_nat k < length xs) by (apply nth_error_Some; congruence). lia.
Qed.

Section SegmenterFailures.

Variable station : string.
Variable vals : list float.
Variable datetime : list Z.
Variable radar_df : DataFrame.
Variable max_no_rain : Z.
Variable min_rain_threshold : float.
Variable temporal_res : string.

Local Abbreviation scan := (scan_candidate max_no_rain min_rain_threshold).
Local Abbreviation loop := (while_loop station vals datetime radar_df max_no_rain
                    min_rain_threshold temporal_res).
Local Abbreviation above := (above_threshold vals min_rain_threshold).
Local Abbreviation run := (select_events_single_station station vals datetime radar_df
                    max_no_rain min_rain_threshold temporal_res).
Local Abbreviation reached := (reaches station vals datetime radar_df max_no_rain
                    min_rain_threshold temporal_res).

(** The run is what the closure at a reached iteration head makes of it,
    when that closure raises. *)
Lemma closure_raises i st k cand c e :
  reached i st -> above i = true ->
  scan (skipn i vals) 0 [] 0 = Some (k, cand, c) ->
  close_candidate station datetime radar_df max_no_rain temporal_res
    i (i + k) c cand st = Raise e ->
  run = Raise e.
Proof.
  intros Hr Ha Hs Hc. rewrite (reaches_run _ _ _ _ _ _ _ i st Hr), while_loop_step.
  destruct (above_threshold_inv vals min_rain_threshold i Ha) as (_ & _ & _ & Hi & _).
  apply Nat.ltb_lt in Hi. now rewrite Hi, Ha, Hs, Hc.
Qed.

(** X9.  When the radar table has no column for the station, the first
    candidate that is closed with both its timestamps in range makes the
    call fail with KeyError, also when that candidate would have been
    discarded. *)
Theorem missing_station_raises i st k cand c t0 t1 :
  reached i st -> above i = true ->
  scan (skipn i vals) 0 [] 0 = Some (k, cand, c) ->
  getitem datetime (Z.of_nat i) = OK t0 ->
  getitem datetime (Z.of_nat (i + k) - max_no_rain) = OK t1 ->
  column_values radar_df station = Raise KeyError ->
  run = Raise KeyError.
Proof.
  intros Hr Ha Hs H0 H1 Hk. apply (closure_raises i st k cand c); auto.
  unfold close_candidate. destruct st as [[events Zv] Rv].
  rewrite H0, H1. cbn [bind].
  unfold column_values, loc. cbn [columns].
  now rewrite (lookup_column_loc _ _ _ _ _ Hk).
Qed.

(** X10.  When the end index [j - max_no_rain] of a closed candidate is
    not an index of the timestamp list (a negative tolerance places it
    after [j]; a timestamp list shorter than the series does too), the call
    fails with IndexError. *)
Theorem timestamp_out_of_range_raises i st k cand c :
  reached i st -> above i = true ->
  scan (skipn i vals) 0 [] 0 = Some (k, cand, c) ->
  (Z.of_nat (length datetime) <= Z.of_nat (i + k) - max_no_rain)%Z ->
  run = Raise IndexError.
Proof.
  intros Hr Ha Hs Hlen. apply (closure_raises i st k cand c); auto.
  unfold close_candidate. destruct st as [[events Zv] Rv].
  destruct (getitem datetime (Z.of_nat i)) as [t0|e] eqn:E0; cbn [bind].
  - now rewrite (getitem_out_of_range datetime _ Hlen).
  - rewrite getitem_nat in E0.
    destruct (nth_error datetime i); unfold from_option in E0;
      [discriminate | injection E0 as <-; reflexivity].
Qed.

End SegmenterFailures.

Lemma missing_station_raises_witness :
  select_events_single_station "B" shower_with_gap (grid 3600 5) radar_hourly 1
    (dec 1 10) "6min" = Raise KeyError.
Proof.
  apply (missing_station_raises "B" shower_with_gap (grid 3600 5) radar_hourly 1
           (dec 1 10) "6min" 0 ([], [], []) 4 shower_with_gap 2 0%Z 10800%Z).
  - constructor.
  - reflexivity.
  - reflexivity.
  - reflexivity.
  - reflexivity.
  - reflexivity.
Defined.

Lemma timestamp_out_of_range_raises_witness :
  select_events_single_station "A" one_shower (grid 3600 2) radar_hourly (-1)
    (dec 1 10) "60min" = Raise IndexError.
Proof.
  apply (timestamp_out_of_range_raises "A" one_shower (grid 3600 2) radar_hourly (-1)
           (dec 1 10) "60min" 0 ([], [], []) 1 one_shower 1).
  - constructor.
  - reflexivity.
  - reflexivity.
  - vm_compute. discriminate.
Defined.

(* ================================================================== *)
(** ** select_events_single_station: what a run returns *)

(** A list whose mean is a number holds numbers only, and at least one. *)
Lemma mean_not_nan_inv xs :
  isnan (mean xs) = false -> xs <> [] /\ exists qs, xs = map Fin qs.
Proof.
  unfold mean, sum. intros H.
  destruct (fold_left fadd xs (Fin 0)) as [|s] eqn:Hs; [discriminate|].
  apply sum_Fin_inv in Hs as (qs & -> & _). split; [|eauto].
  destruct qs; [cbn in H; discriminate | discriminate].
Qed.

Lemma total_duration_app events events' :
  total_duration (events ++ events') = (total_duration events + total_duration events')%Z.
Proof.
  unfold total_duration. induction events as [|e events IH]; cbn [app fold_right]; lia.
Qed.

Section SegmenterReturns.

Variable station : string.
Variable vals : list float.
Variable datetime : list Z.
Variable radar_df : DataFrame.
Variable max_no_rain : Z.
Variable min_rain_threshold : float.
Variable temporal_res : string.

Local Abbreviation scan := (scan_candidate max_no_rain min_rain_threshold).
Local Abbreviation close := (close_candidate station datetime radar_df max_no_rain temporal_res).
Local Abbreviation above := (above_threshold vals min_rain_threshold).
Local Abbreviation run := (select_events_single_station station vals datetime radar_df
                    max_no_rain min_rain_threshold temporal_res).
Local Abbreviation reached := (reaches station vals datetime radar_df max_no_rain
                    min_rain_threshold temporal_res).
Local Abbreviation invariant := (while_loop_invariant station vals datetime radar_df
                    max_no_rain min_rain_threshold temporal_res).

(** The rain samples of a closed candidate start with the value that
    opened it. *)
Lemma rain_vals_head i k cand c :
  above i = true ->
  scan (skipn i vals) 0 [] 0 = Some (k, cand, c) ->
  exists v rest,
    firstn (length cand - c) cand = v :: rest /\
    fge v min_rain_threshold = true.
Proof.
  intros Ha Hs.
  destruct (scan_from_start vals max_no_rain min_rain_threshold i k cand c Ha Hs)
    as (Hl & Hc & _ & _ & Hcand).
  destruct (above_threshold_inv vals min_rain_threshold i Ha) as (v & _ & Hv & _ & Hsk).
  rewrite Hl. rewrite Hsk in Hcand. remember (skipn (S i) vals) as tl.
  cbn [firstn] in Hcand. subst cand.
  destruct (S k - c) as [|m] eqn:Em; [lia|]. cbn [firstn]. eauto.
Qed.

(** X11.  Every event a run returns is a constructed event of the one
    station, and its [rain_intens_max] is at or above the threshold. *)
Theorem emitted_events_of_station events Zv Rv :
  run = OK (events, Zv, Rv) ->
  Forall (of_station station min_rain_threshold) events.
Proof.
  intros Hrun.
  apply (invariant (fun st => Forall (of_station station min_rain_threshold)
                                (fst (fst st)))) in Hrun;
    [exact Hrun | | constructor].
  intros i k cand c [[ev Z0] R0] st' Hi Ha Hs HP Hc. cbn [fst] in HP.
  apply close_candidate_OK in Hc as (t0 & t1 & column & _ & _ & _ & Hc).
  destruct Hc as [[_ ->] | (Hn & _ & zmin & zavg & zmax & rmin & rmax & _ & Hr & ->)];
    cbn [fst]; [exact HP|].
  apply Forall_app. split; [exact HP|]. constructor; [|constructor].
  split; [apply constructed_Event_init|]. do 2 (split; [reflexivity|]).
  cbn [Event_init rain_intens_max].
  destruct (rain_vals_head i k cand c Ha Hs) as (v & rest & Hrv & Hv).
  rewrite Hrv in Hr, Hn. cbn [stats] in Hr. injection Hr as _ <-.
  apply mean_not_nan_inv in Hn as [_ (qs & Hqs)].
  destruct qs as [|a qs]; [discriminate|]. cbn [map] in Hqs. injection Hqs as -> ->.
  destruct (max_list_Fin qs a) as (M & -> & HaM & _).
  unfold fge in *. apply fle_true_inv in Hv as (t & a' & -> & [= <-] & Hta).
  apply fle_Fin. eapply Qle_trans; eauto.
Qed.

(** X12.  No rain value a run returns is nan. *)
Theorem returned_rain_not_nan events Zv Rv :
  run = OK (events, Zv, Rv) -> Forall (fun r => isnan r = false) Rv.
Proof.
  intros Hrun.
  apply (invariant (fun st => Forall (fun r => isnan r = false) (snd st))) in Hrun;
    [exact Hrun | | constructor].
  intros i k cand c [[ev Z0] R0] st' Hi Ha Hs HP Hc. cbn [snd] in HP.
  apply close_candidate_OK in Hc as (t0 & t1 & column & _ & _ & _ & Hc).
  destruct Hc as [[_ ->] | (Hn & _ & zmin & zavg & zmax & rmin & rmax & _ & _ & ->)];
    cbn [snd]; [exact HP|].
  apply Forall_app. split; [exact HP|].
  apply mean_not_nan_inv in Hn as [_ (qs & ->)].
  apply Forall_forall. intros r Hr. apply in_map_iff in Hr as (q & <- & _). reflexivity.
Qed.

End SegmenterReturns.

Lemma emitted_events_of_station_witness :
  exists events Zv Rv,
    select_events_single_station "A" two_showers (grid 3600 4) radar_hourly 0
      (dec 1 10) "60min" = OK (events, Zv, Rv) /\
    length events = 1 /\
    Forall (of_station "A" (dec 1 10)) events.
Proof.
  eexists _, _, _. split; [vm_compute; reflexivity|]. split; [reflexivity|].
  eapply (emitted_events_of_station "A" two_showers (grid 3600 4) radar_hourly 0
            (dec 1 10) "60min").
  vm_compute. reflexivity.
Defined.

Lemma returned_rain_not_nan_witness :
  exists events Zv Rv,
    select_events_single_station "A" two_showers (grid 3600 4) radar_hourly 0
      (dec 1 10) "60min" = OK (events, Zv, Rv) /\
    length Rv = 1 /\ Forall (fun r => isnan r = false) Rv.
Proof.
  eexists _, _, _. split; [vm_compute; reflexivity|]. split; [reflexivity|].
  eapply (returned_rain_not_nan "A" two_showers (grid 3600 4) radar_hourly 0
            (dec 1 10) "60min").
  vm_compute. reflexivity.
Defined.

Lemma chain_snoc_Forall R events e :
  chain R events -> Forall (fun x => R x e) events -> chain R (events ++ [e]).
Proof.
  induction events as [|a events IH]; intros Hc Hf; [exact I|].
  inversion Hf as [|? ? Hae Hf']; subst.
  destruct events as [|b events]; cbn in *; [tauto|].
  destruct Hc as [Hab Hc]. split; [exact Hab|]. now apply IH.
Qed.

Section SegmenterOrder.

Variable station : string.
Variable vals : list float.
Variable datetime : list Z.
Variable radar_df : DataFrame.
Variable max_no_rain : Z.
Variable min_rain_threshold : float.
Variable temporal_res : string.

Local Abbreviation scan := (scan_candidate max_no_rain min_rain_threshold).
Local Abbreviation above := (above_threshold vals min_rain_threshold).
Local Abbreviation run := (select_events_single_station station vals datetime radar_df
                    max_no_rain min_rain_threshold temporal_res).
Local Abbreviation reached := (reaches station vals datetime radar_df max_no_rain
                    min_rain_threshold temporal_res).
Local Abbreviation invariant := (while_loop_invariant station vals datetime radar_df
                    max_no_rain min_rain_threshold temporal_res).

(** At an iteration head every event collected so far ends at a timestamp
    whose index lies before the head, and the events are apart. *)
Lemma reaches_apart i st :
  increasing datetime -> (0 <= max_no_rain)%Z -> reached i st ->
  chain apart (fst (fst st)) /\
  Forall (fun e => exists idx, nth_error datetime idx = Some (end_time e) /\ idx < i)
         (fst (fst st)).
Proof.
  intros Hinc HG Hr.
  induction Hr as [|i st _ IH Hi Ha|i st _ IH Hi Ha Hs|i st k cand c st' _ IH Hi Ha Hs Hc].
  - split; [exact I | constructor].
  - destruct IH as [IH1 IH2]. split; [exact IH1|].
    eapply Forall_impl; [|exact IH2]. intros e (idx & H1 & H2). exists idx. split; [auto|lia].
  - destruct IH as [IH1 IH2]. split; [exact IH1|].
    eapply Forall_impl; [|exact IH2]. intros e (idx & H1 & H2). exists idx. split; [auto|lia].
  - destruct IH as [IH1 IH2]. destruct st as [[ev Z0] R0]. cbn [fst] in IH1, IH2.
    apply close_candidate_OK in Hc as (t0 & t1 & column & H0 & H1 & _ & Hc).
    pose proof (closing_index_after_start vals max_no_rain min_rain_threshold
                  i k cand c Ha Hs) as [Hlt Hle].
    specialize (Hle HG).
    destruct Hc as [[_ ->] | (_ & _ & zmin & zavg & zmax & rmin & rmax & _ & _ & ->)];
      cbn [fst].
    + split; [exact IH1|].
      eapply Forall_impl; [|exact IH2]. intros e (idx & E1 & E2). exists idx. split; [auto|lia].
    + rewrite getitem_nat in H0.
      destruct (nth_error datetime i) as [t|] eqn:Ei; cbn in H0; [|discriminate].
      injection H0 as ->.
      apply getitem_nonneg in H1; [|lia]. split.
      * apply chain_snoc_Forall; [exact IH1|].
        eapply Forall_impl; [|exact IH2]. intros e (idx & E1 & E2).
        unfold apart. cbn [Event_init start_time]. eapply Hinc; eauto.
      * apply Forall_app. split.
        -- eapply Forall_impl; [|exact IH2]. intros e (idx & E1 & E2).
           exists idx. split; [auto|lia].
        -- constructor; [|constructor]. cbn [Event_init end_time].
           exists (Z.to_nat (Z.of_nat (i + k) - max_no_rain)). split; [exact H1|lia].
Qed.

(** X13.  With strictly increasing timestamps and a non-negative
    tolerance, the events a run returns are in time order and do not
    overlap: each one starts after the one before it has ended. *)
Theorem station_events_apart events Zv Rv :
  increasing datetime -> (0 <= max_no_rain)%Z ->
  run = OK (events, Zv, Rv) -> chain apart events.
Proof.
  intros Hinc HG Hrun.
  destruct (run_reaches _ _ _ _ _ _ _ _ Hrun) as (n & Hr & _).
  apply (reaches_apart n (events, Zv, Rv) Hinc HG Hr).
Qed.

(** With a non-negative tolerance a candidate is closed by the run of
    exactly [max_no_rain + 1] values below the threshold. *)
Lemma scan_closes_at_tolerance rest : forall k cand c k' cand' c',
  (0 <= max_no_rain)%Z ->
  scan rest k cand c = Some (k', cand', c') ->
  (Z.of_nat c <= max_no_rain)%Z ->
  Z.of_nat c' = (max_no_rain + 1)%Z.
Proof.
  induction rest as [|v rest IH]; intros k cand c k' cand' c' HG H Hc;
    cbn [scan_candidate] in H; [discriminate|].
  destruct (fge v min_rain_threshold).
  - apply IH in H; auto; cbn; lia.
  - destruct (Z.of_nat (S c) >? max_no_rain)%Z eqn:E.
    + injection H as _ _ <-. rewrite Z.gtb_ltb, Z.ltb_lt in E. lia.
    + apply IH in H; auto. rewrite Z.gtb_ltb, Z.ltb_ge in E. exact E.
Qed.

(** X14.  On hourly timestamps and with a non-negative tolerance, the
    durations of the events a run returns add up to the number of rain
    values it returns: an event lasts as many hours as it has rain
    samples. *)
Theorem hourly_durations_count_samples origin events Zv Rv :
  hourly origin datetime -> (0 <= max_no_rain)%Z ->
  run = OK (events, Zv, Rv) ->
  total_duration events = Z.of_nat (length Rv).
Proof.
  intros Hh HG Hrun.
  apply (invariant (fun st => total_duration (fst (fst st)) = Z.of_nat (length (snd st))))
    in Hrun; [exact Hrun | | reflexivity].
  intros i k cand c [[ev Z0] R0] st' Hi Ha Hs HP Hc. cbn [fst snd] in HP.
  apply close_candidate_OK in Hc as (t0 & t1 & column & H0 & H1 & _ & Hc).
  destruct Hc as [[_ ->] | (_ & _ & zmin & zavg & zmax & rmin & rmax & _ & _ & ->)];
    cbn [fst snd]; [exact HP|].
  destruct (scan_from_start vals max_no_rain min_rain_threshold i k cand c Ha Hs)
    as (Hl & Hc & _ & _ & _).
  pose proof (scan_closes_at_tolerance _ _ _ _ _ _ _ HG Hs ltac:(cbn; lia)) as Hc'.
  rewrite getitem_nat in H0.
  destruct (nth_error datetime i) as [t|] eqn:Ei; cbn in H0; [|discriminate].
  injection H0 as ->. apply getitem_nonneg in H1; [|lia].
  apply Hh in Ei, H1. subst t0 t1.
  rewrite total_duration_app, !length_app, HP, length_firstn, Hl.
  cbn [total_duration fold_right Event_init duration].
  rewrite Z2Nat.id by lia.
  replace (origin + 3600 * (Z.of_nat (i + k) - max_no_rain)
           - (origin + 3600 * Z.of_nat i))%Z
    with ((Z.of_nat k - max_no_rain) * 3600)%Z by lia.
  rewrite Z.div_mul by lia. lia.
Qed.

End SegmenterOrder.

Lemma grid_hourly n : hourly 0 (grid 3600 n).
Proof. intros a t H. apply grid_nth_error in H. lia. Qed.

Lemma station_events_apart_witness :
  exists events Zv Rv,
    select_events_single_station "A" [dec 1 2; dec 0 1; dec 0 1; dec 1 2; dec 0 1]
      (grid 3600 5) radar_hourly 0 (dec 1 10) "60min" = OK (events, Zv, Rv) /\
    length events = 2 /\ chain apart events.
Proof.
  eexists _, _, _. split; [vm_compute; reflexivity|]. split; [reflexivity|].
  eapply (station_events_apart "A" [dec 1 2; dec 0 1; dec 0 1; dec 1 2; dec 0 1]
            (grid 3600 5) radar_hourly 0 (dec 1 10) "60min").
  - apply grid_increasing. reflexivity.
  - discriminate.
  - vm_compute. reflexivity.
Defined.

Lemma hourly_durations_count_samples_witness :
  exists events Zv Rv,
    select_events_single_station "A" [dec 1 2; dec 0 1; dec 1 2; dec 0 1; dec 0 1]
      (grid 3600 5) radar_hourly 1 (dec 1 10) "60min" = OK (events, Zv, Rv) /\
    length Rv = 3 /\ total_duration events = Z.of_nat (length Rv).
Proof.
  eexists _, _, _. split; [vm_compute; reflexivity|]. split; [reflexivity|].
  eapply (hourly_durations_count_samples "A" [dec 1 2; dec 0 1; dec 1 2; dec 0 1; dec 0 1]
            (grid 3600 5) radar_hourly 1 (dec 1 10) "60min" 0).
  - apply grid_hourly.
  - discriminate.
  - vm_compute. reflexivity.
Defined.

(** X15.  In a mode that announces a ratio, the reflectivity values a run
    returns are that many times the rain values it returns (ten times in
    '6min', as many in '60min' and '1H'). *)
Theorem returned_samples_in_ratio
    (station : string) (vals : list float) (datetime : list Z)
    (radar_df : DataFrame) (max_no_rain : Z) (min_rain_threshold : float)
    (temporal_res : string) (ratio : nat) (events : list Event) (Zv Rv : list float) :
  mode_ratio temporal_res = Some ratio ->
  select_events_single_station station vals datetime radar_df max_no_rain
    min_rain_threshold temporal_res = OK (events, Zv, Rv) ->
  length Zv = ratio * length Rv.
Proof. apply sampled_lengths_agree. Qed.

Lemma returned_samples_in_ratio_witness :
  exists events Zv Rv,
    select_events_single_station "A" one_shower (grid 3600 2) radar_6min 0
      (dec 1 10) "6min" = OK (events, Zv, Rv) /\
    length Rv = 1 /\ length Zv = 10 * length Rv.
Proof.
  eexists _, _, _. split; [vm_compute; reflexivity|]. split; [reflexivity|].
  eapply (returned_samples_in_ratio "A" one_shower (grid 3600 2) radar_6min 0
            (dec 1 10) "6min" 10); [reflexivity | vm_compute; reflexivity].
Defined.

(* ================================================================== *)
(** ** select_all_events: composition *)

Lemma getitem_raise {A} (xs : list A) (k : Z) e :
  getitem xs k = Raise e -> e = IndexError.
Proof.
  unfold getitem, from_option.
  destruct (0 <=? k)%Z; [destruct (nth_error xs (Z.to_nat k)); congruence|].
  destruct (0 <=? Z.of_nat (length xs) + k)%Z; [|congruence].
  destruct (nth_error xs _); congruence.
Qed.

Lemma lookup_column_raise cols station e :
  lookup_column cols station = Raise e -> e = KeyError.
Proof.
  induction cols as [|[name col] cols IH]; cbn; [congruence|].
  destruct (name =? station)%string; [discriminate | exact IH].
Qed.

Section SegmenterExceptions.

Variable station : string.
Variable vals : list float.
Variable datetime : list Z.
Variable radar_df : DataFrame.
Variable max_no_rain : Z.
Variable min_rain_threshold : float.
Variable temporal_res : string.

Local Abbreviation close := (close_candidate station datetime radar_df max_no_rain temporal_res).
Local Abbreviation loop := (while_loop station vals datetime radar_df max_no_rain
                    min_rain_threshold temporal_res).

Lemma close_candidate_raise i j c cand st e :
  close i j c cand st = Raise e -> segmenter_exn e.
Proof.
  unfold close_candidate, segmenter_exn. destruct st as [[events Zv] Rv].
  destruct (getitem datetime (Z.of_nat i)) as [t0|e0] eqn:E0; cbn [bind].
  2:{ intros [= <-]. apply getitem_raise in E0. auto. }
  destruct (getitem datetime (Z.of_nat j - max_no_rain)) as [t1|e1] eqn:E1; cbn [bind].
  2:{ intros [= <-]. apply getitem_raise in E1. auto. }
  destruct (column_values (loc radar_df t0 t1) station) as [column|e2] eqn:E2; cbn [bind].
  2:{ intros [= <-]. apply lookup_column_raise in E2. auto. }
  destruct (stats (removelast column)) as [[zmin zavg] zmax].
  destruct (stats (firstn (length cand - c) cand)) as [[rmin ravg] rmax].
  destruct (negb (isnan ravg)); [|discriminate].
  destruct (sampling_ok _ _ _); [discriminate|].
  intros [= <-]. right. right. eauto.
Qed.

Lemma while_loop_raise i st e : loop i st = Raise e -> segmenter_exn e.
Proof.
  remember (length vals - i) as n eqn:Hn.
  revert i Hn st. induction n as [n IH] using lt_wf_ind. intros i Hn st.
  rewrite while_loop_step. destruct (Nat.ltb_spec i (length vals)) as [Hi|Hi]; [|discriminate].
  destruct (above_threshold vals min_rain_threshold i).
  - destruct (scan_candidate _ _ _ _ _ _) as [[[k cand] c]|].
    + destruct (close i (i + k) c cand st) as [st1|e1] eqn:Hc; cbn [bind].
      * apply (IH (length vals - (i + k + 1 + 1))); lia.
      * intros [= <-]. eapply close_candidate_raise; eauto.
    + apply (IH (length vals - (i + 1))); lia.
  - apply (IH (length vals - (i + 1))); lia.
Qed.

End SegmenterExceptions.

Lemma stations_loop_raise items : forall datetime radar_df max_no_rain thr st e,
  stations_loop items datetime radar_df max_no_rain thr st = Raise e ->
  segmenter_exn e.
Proof.
  induction items as [|[station vals] items IH]; intros datetime radar_df G thr st e;
    cbn [stations_loop]; [discriminate|].
  destruct st as [[events Zv] Rv].
  destruct (select_events_single_station station vals datetime radar_df G thr "6min")
    as [[[se sZ] sR]|e1] eqn:E; cbn [bind].
  - apply IH.
  - intros [= <-]. eapply while_loop_raise; eauto.
Qed.

Lemma stations_loop_ratio items : forall datetime radar_df max_no_rain thr st st',
  length (snd (fst st)) = 10 * length (snd st) ->
  stations_loop items datetime radar_df max_no_rain thr st = OK st' ->
  length (snd (fst st')) = 10 * length (snd st').
Proof.
  induction items as [|[station vals] items IH]; intros datetime radar_df G thr st st' Hst;
    cbn [stations_loop]; [now intros [= <-]|].
  destruct st as [[events Zv] Rv].
  destruct (select_events_single_station station vals datetime radar_df G thr "6min")
    as [[[se sZ] sR]|e1] eqn:E; cbn [bind]; [|discriminate].
  apply IH. cbn [fst snd] in *.
  apply (sampled_lengths_agree _ _ _ _ _ _ _ 10) in E; [|reflexivity].
  rewrite !length_app. lia.
Qed.

Lemma merge_overlapping_events_raise events e :
  merge_overlapping_events events = Raise e -> e = IndexError.
Proof.
  unfold merge_overlapping_events. rewrite plot_single_events_spec.
  destruct (100 <=? length (sort_by_start events))%nat; cbn [bind]; [|congruence].
  destruct (sort_by_start events) as [|first rest]; cbn; [congruence|].
  destruct (merge_loop_facts rest [] first) as (merged & Hm & _).
  cbn [app] in Hm. rewrite Hm. discriminate.
Qed.

Lemma rows_of_length {A} rows cols (xs : list A) : length (rows_of rows cols xs) = rows.
Proof. revert xs. induction rows as [|rows IH]; intros xs; cbn; auto. Qed.

Lemma rows_of_row_length {A} rows cols : forall (xs : list A),
  length xs = rows * cols ->
  Forall (fun row => length row = cols) (rows_of rows cols xs).
Proof.
  induction rows as [|rows IH]; intros xs Hlen; cbn [rows_of]; constructor.
  - rewrite length_firstn. cbn in Hlen. lia.
  - apply IH. rewrite length_skipn. cbn in Hlen. lia.
Qed.

Lemma bool_index_total {A B} (f : A -> bool) (xs : list A) : forall (ys : list B),
  length xs = length ys -> exists r, bool_index (map f xs) ys = OK r.
Proof.
  induction xs as [|x xs IH]; intros [|y ys] Hlen; cbn in *; try discriminate; eauto.
  destruct (IH ys) as (r & ->); [lia|]. cbn. eauto.
Qed.

(** The part of [select_all_events] after the merge (lines 336-365)
    returns whenever it is given ten reflectivity values per rain value. *)
Lemma select_all_events_split rain_df radar_df max_no_rain thr :
  select_all_events rain_df radar_df max_no_rain thr =
  ('(events, Zv, Rv) <-
     stations_loop (columns rain_df) (index rain_df) radar_df max_no_rain thr
       ([], [], []) ;;
   events' <- (if (1 <? length events)%nat then merge_overlapping_events events
               else OK events) ;;
   Zm <- reshape Zv (length Zv / 10) 10 ;;
   if negb (length Zm =? length Rv)%nat then
     Raise (LengthError (length Zm) (length Rv))
   else
     Rv1 <- bool_index (map (forallb nonzero) Zm) Rv ;;
     Zm1 <- bool_index (map (forallb nonzero) Zm) Zm ;;
     Rv2 <- bool_index (map (forallb notnan) Zm1) Rv1 ;;
     Zm2 <- bool_index (map (forallb notnan) Zm1) Zm1 ;;
     Zm3 <- bool_index (map nonzero Rv2) Zm2 ;;
     Rv3 <- bool_index (map nonzero Rv2) Rv2 ;;
     Zm4 <- bool_index (map notnan Rv3) Zm3 ;;
     Rv4 <- bool_index (map notnan Rv3) Rv3 ;;
     OK (events', Zm4, Rv4)).
Proof. reflexivity. Qed.

Lemma cleaning_returns (events : list Event) (Zv Rv : list float) :
  length Zv = 10 * length Rv ->
  exists Zm Rv',
    (Zm <- reshape Zv (length Zv / 10) 10 ;;
     if negb (length Zm =? length Rv)%nat then
       Raise (LengthError (length Zm) (length Rv))
     else
       Rv1 <- bool_index (map (forallb nonzero) Zm) Rv ;;
       Zm1 <- bool_index (map (forallb nonzero) Zm) Zm ;;
       Rv2 <- bool_index (map (forallb notnan) Zm1) Rv1 ;;
       Zm2 <- bool_index (map (forallb notnan) Zm1) Zm1 ;;
       Zm3 <- bool_index (map nonzero Rv2) Zm2 ;;
       Rv3 <- bool_index (map nonzero Rv2) Rv2 ;;
       Zm4 <- bool_index (map notnan Rv3) Zm3 ;;
       Rv4 <- bool_index (map notnan Rv3) Rv3 ;;
       OK (events, Zm4, Rv4)) = OK (events, Zm, Rv').
Proof.
  intros Hlen. unfold reshape.
  assert (Hdiv : length Zv / 10 = length Rv).
  { rewrite Hlen, Nat.mul_comm. apply Nat.div_mul. discriminate. }
  rewrite Hdiv. assert (Hq : (length Zv =? length Rv * 10)%nat = true)
    by (apply Nat.eqb_eq; lia).
  rewrite Hq. cbn [bind]. rewrite rows_of_length, Nat.eqb_refl. cbn [negb].
  set (Zm := rows_of (length Rv) 10 Zv).
  assert (L0 : length Zm = length Rv) by apply rows_of_length.
  destruct (bool_index_total (forallb nonzero) Zm Rv L0) as (Rv1 & E1).
  rewrite E1, bool_index_filter. cbn [bind].
  set (Zm1 := filter (forallb nonzero) Zm).
  assert (L1 : length Zm1 = length Rv1).
  { symmetry. eapply bool_index_same_length; [exact E1 | apply bool_index_filter]. }
  destruct (bool_index_total (forallb notnan) Zm1 Rv1 L1) as (Rv2 & E2).
  rewrite E2, bool_index_filter. cbn [bind].
  set (Zm2 := filter (forallb notnan) Zm1).
  assert (L2 : length Rv2 = length Zm2).
  { eapply bool_index_same_length; [exact E2 | apply bool_index_filter]. }
  destruct (bool_index_total nonzero Rv2 Zm2 L2) as (Zm3 & E3).
  rewrite E3, bool_index_filter. cbn [bind].
  assert (L3 : length (filter nonzero Rv2) = length Zm3).
  { eapply bool_index_same_length; [apply bool_index_filter | exact E3]. }
  destruct (bool_index_total notnan (filter nonzero Rv2) Zm3 L3) as (Zm4 & E4).
  rewrite E4, bool_index_filter. cbn [bind]. eauto.
Qed.

Lemma merge_short_raises events :
  length events < 100 -> merge_overlapping_events events = Raise IndexError.
Proof.
  intros Hlen. unfold merge_overlapping_events.
  rewrite plot_single_events_spec, sort_by_start_length.
  destruct (Nat.leb_spec 100 (length events)); [lia | reflexivity].
Qed.

(** X16.  Once every station has been segmented, [select_all_events]
    returns exactly when the stations yielded fewer than two events or at
    least a hundred: with 2 to 99 events it fails with IndexError (raised
    while plotting inside the merger), and otherwise nothing after the
    segmentation can fail. *)
Theorem select_all_events_returns_iff
    (rain_df radar_df : DataFrame) (max_no_rain : Z) (min_rain_threshold : float)
    (events : list Event) (Zv Rv : list float) :
  stations_loop (columns rain_df) (index rain_df) radar_df max_no_rain
    min_rain_threshold ([], [], []) = OK (events, Zv, Rv) ->
  (2 <= length events < 100 ->
   select_all_events rain_df radar_df max_no_rain min_rain_threshold
     = Raise IndexError) /\
  (length events < 2 \/ 100 <= length events ->
   exists events' Zm Rv',
     select_all_events rain_df radar_df max_no_rain min_rain_threshold
       = OK (events', Zm, Rv')).
Proof.
  intros Hst. rewrite select_all_events_split, Hst. cbn [bind].
  pose proof (stations_loop_ratio _ _ _ _ _ ([], [], []) _ eq_refl Hst) as Hratio.
  cbn [fst snd] in Hratio. split.
  - intros [H2 H100]. destruct (Nat.ltb_spec 1 (length events)) as [_|H]; [|lia].
    now rewrite (merge_short_raises events H100).
  - intros [H|H].
    + destruct (Nat.ltb_spec 1 (length events)) as [H'|_]; [lia|]. cbn [bind].
      destruct (cleaning_returns events Zv Rv Hratio) as (Zm & Rv' & ->). eauto.
    + destruct (Nat.ltb_spec 1 (length events)) as [_|H']; [|lia].
      destruct (merge_overlapping_events_hundred events H) as (merged & -> & _).
      cbn [bind].
      destruct (cleaning_returns merged Zv Rv Hratio) as (Zm & Rv' & ->). eauto.
Qed.

Lemma select_all_events_returns_iff_witness :
  select_all_events rain_two_stations radar_two_stations 0 (dec 1 10) = Raise IndexError /\
  exists events' Zm Rv',
    select_all_events rain_one_shower radar_6min 0 (dec 1 10) = OK (events', Zm, Rv').
Proof.
  split.
  - eapply (select_all_events_returns_iff rain_two_stations radar_two_stations 0 (dec 1 10)).
    + vm_compute. reflexivity.
    + cbn. lia.
  - eapply (select_all_events_returns_iff rain_one_shower radar_6min 0 (dec 1 10)).
    + vm_compute. reflexivity.
    + left. cbn. lia.
Defined.

(** X17.  [select_all_events] fails only with IndexError, KeyError or the
    segmenter's sampling exception: the reshape never raises ValueError and
    the test of line 344 never raises, because in '6min' mode the segmenter
    returns ten reflectivity values per rain value. *)
Theorem select_all_events_exceptions
    (rain_df radar_df : DataFrame) (max_no_rain : Z) (min_rain_threshold : float)
    (e : exn) :
  select_all_events rain_df radar_df max_no_rain min_rain_threshold = Raise e ->
  segmenter_exn e.
Proof.
  rewrite select_all_events_split.
  destruct (stations_loop _ _ _ _ _ _) as [[[events Zv] Rv]|e0] eqn:Hst; cbn [bind].
  2:{ intros [= <-]. eapply stations_loop_raise; eauto. }
  pose proof (stations_loop_ratio _ _ _ _ _ ([], [], []) _ eq_refl Hst) as Hratio.
  cbn [fst snd] in Hratio.
  destruct (if (1 <? length events)%nat then merge_overlapping_events events else OK events)
    as [events'|e1] eqn:Hm; cbn [bind].
  - destruct (cleaning_returns events' Zv Rv Hratio) as (Zm & Rv' & ->). discriminate.
  - intros [= <-]. destruct (1 <? length events)%nat; [|discriminate].
    apply merge_overlapping_events_raise in Hm. left. exact Hm.
Qed.

Lemma select_all_events_exceptions_witness :
  segmenter_exn IndexError /\
  select_all_events rain_two_stations radar_two_stations 0 (dec 1 10) = Raise IndexError.
Proof.
  split; [|vm_compute; reflexivity].
  apply (select_all_events_exceptions rain_two_stations radar_two_stations 0 (dec 1 10)).
  vm_compute. reflexivity.
Defined.

(** X18.  Every reflectivity row [select_all_events] returns holds ten
    values. *)
Theorem select_all_events_rows_of_ten
    (rain_df radar_df : DataFrame) (max_no_rain : Z) (min_rain_threshold : float)
    (events : list Event) (Zm : list (list float)) (Rv : list float) :
  select_all_events rain_df radar_df max_no_rain min_rain_threshold
    = OK (events, Zm, Rv) ->
  Forall (fun row => length row = 10) Zm.
Proof.
  rewrite select_all_events_split. intros H.
  bind_ok H st E0. destruct st as [[ev Z0] R0].
  bind_ok H ev' E1. bind_ok H Zm0 E2.
  destruct (negb (length Zm0 =? length R0)%nat); [discriminate|].
  bind_ok H R1 E3. bind_ok H Z1 E4. bind_ok H R2 E5. bind_ok H Z2 E6.
  bind_ok H Z3 E7. bind_ok H R3 E8. bind_ok H Z4 E9. bind_ok H R4 E10.
  injection H as <- <- <-.
  unfold reshape in E2.
  destruct (Nat.eqb_spec (length Z0) (length Z0 / 10 * 10)) as [Hlen|]; [|discriminate].
  injection E2 as <-.
  eapply bool_index_Forall; [exact E9|].
  eapply bool_index_Forall; [exact E7|].
  eapply bool_index_Forall; [exact E6|].
  eapply bool_index_Forall; [exact E4|].
  now apply rows_of_row_length.
Qed.

Lemma select_all_events_rows_of_ten_witness :
  exists events Zm Rv,
    select_all_events rain_one_shower radar_6min 0 (dec 1 10) = OK (events, Zm, Rv) /\
    length Zm = 1 /\ Forall (fun row => length row = 10) Zm.
Proof.
  eexists _, _, _. split; [vm_compute; reflexivity|]. split; [reflexivity|].
  eapply (select_all_events_rows_of_ten rain_one_shower radar_6min 0 (dec 1 10)).
  vm_compute. reflexivity.
Defined.

Lemma stations_loop_dry items : forall datetime radar_df max_no_rain thr st,
  Forall (fun col => Forall (fun v => fge v thr = false) (snd col)) items ->
  stations_loop items datetime radar_df max_no_rain thr st = OK st.
Proof.
  induction items as [|[station vals] items IH]; intros datetime radar_df G thr st Hdry;
    cbn [stations_loop]; [reflexivity|].
  inversion Hdry as [|? ? Hvals Hrest]; subst. cbn [snd] in Hvals.
  destruct st as [[events Zv] Rv].
  assert (Hrun : select_events_single_station station vals datetime radar_df G thr "6min"
                 = OK ([], [], [])).
  { apply while_loop_no_closure. intros i Ha. unfold above_threshold in Ha.
    destruct (nth_error vals i) as [v|] eqn:E; [|discriminate].
    apply nth_error_In in E. rewrite Forall_forall in Hvals.
    rewrite (Hvals v E) in Ha. discriminate. }
  rewrite Hrun. cbn [bind]. rewrite !app_nil_r. now apply IH.
Qed.

(** X19.  A gauge table in which no station has a value at or above the
    threshold (also a table without stations or without rows) makes
    [select_all_events] return no event, no reflectivity row and no rain
    value, whatever the radar table. *)
Theorem dry_table_yields_nothing
    (rain_df radar_df : DataFrame) (max_no_rain : Z) (min_rain_threshold : float) :
  Forall (fun col => Forall (fun v => fge v min_rain_threshold = false) (snd col))
         (columns rain_df) ->
  select_all_events rain_df radar_df max_no_rain min_rain_threshold = OK ([], [], []).
Proof.
  intros Hdry. rewrite select_all_events_split.
  rewrite (stations_loop_dry _ _ _ _ _ _ Hdry). reflexivity.
Qed.

Lemma dry_table_yields_nothing_witness :
  select_all_events
    {| index := grid 3600 2;
       columns := [("A"%string, [dec 0 1; NaN]); ("B"%string, [dec 1 20; dec 0 1])] |}
    (mkDataFrame [] []) 0 (dec 1 10) = OK ([], [], []).
Proof.
  apply dry_table_yields_nothing. repeat constructor.
Defined.

(* ================================================================== *)
(** ** write_events_to_excel *)

Section ExportProperties.

Variable log10 : Q -> Q.

Lemma negative_Fin q : negative (Fin q) = true <-> (q < 0)%Q.
Proof. unfold negative. apply flt_Fin. Qed.

Lemma to_dBZ_cases x :
  (negative x = true /\ to_dBZ log10 x = Raise ValueError) \/
  (negative x = false /\ exists y, to_dBZ log10 x = OK y /\ negative y = false /\
                                   (isnan x = true -> isnan y = true) /\
                                   (feq x (Fin 0%Q) = true -> y = Fin 0%Q)).
Proof.
  unfold to_dBZ. destruct x as [|q]; cbn [feq].
  - right. split; [reflexivity|]. cbn. exists NaN. repeat split; auto; discriminate.
  - destruct (Qeq_bool q 0) eqn:E0.
    + right. apply Qeq_bool_iff in E0. split.
      * apply not_true_iff_false. rewrite negative_Fin. lra.
      * exists (Fin 0). repeat split; auto; discriminate.
    + cbn [math_log10]. destruct (Qle_bool q 0) eqn:E1; cbn [bind].
      * left. split; [|reflexivity]. apply negative_Fin.
        apply Qle_bool_iff in E1. apply not_true_iff_false in E0.
        rewrite Qeq_bool_iff in E0. lra.
      * right. split.
        -- apply not_true_iff_false. rewrite negative_Fin.
           apply not_true_iff_false in E1. rewrite Qle_bool_iff in E1. lra.
        -- eexists. split; [reflexivity|]. cbn [fmul]. split; [|split; discriminate].
           destruct (max2_Fin (10 * log10 q) 0) as (m & -> & _ & Hm).
           apply not_true_iff_false. rewrite negative_Fin. lra.
Qed.

(** X20.  [to_dBZ] raises ValueError exactly on the numbers below zero.
    On every other value it returns a value that is not below zero: 0 for
    0, nan for nan. *)
Theorem to_dBZ_never_negative (x : float) :
  (to_dBZ log10 x = Raise ValueError <-> negative x = true) /\
  (forall e, to_dBZ log10 x = Raise e -> e = ValueError) /\
  (forall y, to_dBZ log10 x = OK y -> negative y = false) /\
  (feq x (Fin 0%Q) = true -> to_dBZ log10 x = OK (Fin 0%Q)) /\
  (isnan x = true -> to_dBZ log10 x = OK NaN).
Proof.
  destruct (to_dBZ_cases x) as [[Hn Hr]|[Hn (y & Hy & Hyn & Hnan & Hzero)]].
  - rewrite Hr. split; [|split; [|split; [|split]]].
    + tauto.
    + now intros e [= <-].
    + discriminate.
    + intros H. destruct x as [|q]; cbn in H, Hn; [discriminate|].
      apply Qeq_bool_iff in H. apply -> (negative_Fin q) in Hn. lra.
    + intros H. destruct x; [discriminate Hn | discriminate H].
  - rewrite Hy. split; [|split; [|split; [|split]]].
    + split; [discriminate | congruence].
    + discriminate.
    + now intros y' [= <-].
    + intros H. now rewrite (Hzero H).
    + intros H. specialize (Hnan H). destruct y; [reflexivity | discriminate].
Qed.

Lemma event_row_cases e :
  (exportable e = false /\ event_row log10 e = Raise ValueError) \/
  (exportable e = true /\ exists r, event_row log10 e = OK r /\
                                    copied_columns r = copied_fields e /\
                                    dBZ_not_negative r).
Proof.
  unfold event_row, exportable.
  destruct (to_dBZ_cases (reflect_min e)) as [[N1 ->]|[N1 (y1 & -> & Y1 & _)]];
    rewrite N1; cbn [bind orb negb]; [left; auto|].
  destruct (to_dBZ_cases (reflect_avg e)) as [[N2 ->]|[N2 (y2 & -> & Y2 & _)]];
    rewrite N2; cbn [bind orb negb]; [left; auto|].
  destruct (to_dBZ_cases (reflect_max e)) as [[N3 ->]|[N3 (y3 & -> & Y3 & _)]];
    rewrite N3; cbn [bind orb negb]; [left; auto|].
  right. split; [reflexivity|]. eexists. split; [reflexivity|].
  split; [reflexivity|]. unfold dBZ_not_negative. cbn. auto.
Qed.

Lemma rows_loop_spec events : forall events_df,
  (forallb exportable events = false /\
   rows_loop log10 events events_df = Raise ValueError) \/
  (forallb exportable events = true /\
   exists rows, rows_loop log10 events events_df = OK (events_df ++ rows) /\
                map copied_columns rows = map copied_fields events /\
                Forall dBZ_not_negative rows).
Proof.
  induction events as [|e events IH]; intros events_df; cbn [rows_loop forallb].
  - right. split; [reflexivity|]. exists []. rewrite app_nil_r. auto.
  - destruct (event_row_cases e) as [[He ->]|[He (r & -> & Hr & Hd)]];
      rewrite He; cbn [bind andb]; [left; auto|].
    destruct (IH (events_df ++ [r])) as [[Hf ->]|[Hf (rows & -> & Hc & Hn)]];
      [left; auto|].
    right. split; [exact Hf|]. exists (r :: rows). rewrite <- app_assoc.
    split; [reflexivity|]. cbn [map]. rewrite Hr, Hc. auto.
Qed.

(** X21.  [write_events_to_excel] builds its table exactly when no event
    has a reflectivity statistic below zero, and fails with ValueError
    otherwise.  The table has one row per event, in the order of the
    events; the times, stations, rain statistics and type are copied, and
    no decibel value is below zero. *)
Theorem write_events_to_excel_rows (events : list Event) :
  (forallb exportable events = false ->
   write_events_to_excel log10 events = Raise ValueError) /\
  (forallb exportable events = true ->
   exists rows, write_events_to_excel log10 events = OK rows) /\
  (forall rows, write_events_to_excel log10 events = OK rows ->
     map copied_columns rows = map copied_fields events /\
     Forall dBZ_not_negative rows).
Proof.
  unfold write_events_to_excel.
  destruct (rows_loop_spec events []) as [[Hf Hr]|[Hf (rows & Hr & Hc & Hn)]];
    rewrite Hr, Hf; cbn [app].
  - split; [reflexivity|]. split; discriminate.
  - split; [discriminate|]. split; [eauto|]. now intros rows' [= <-].
Qed.

End ExportProperties.

(* ================================================================== *)
(** ** objective *)

Lemma not_negative_Fin q : negative (Fin q) = false <-> (0 <= q)%Q.
Proof.
  rewrite <- not_true_iff_false. unfold negative. rewrite flt_Fin.
  split; [apply Qnot_lt_le | apply Qle_not_lt].
Qed.

Lemma sum_not_negative xs : forall a,
  (0 <= a)%Q -> Forall (fun x => negative x = false) xs ->
  negative (fold_left fadd xs (Fin a)) = false.
Proof.
  induction xs as [|x xs IH]; intros a Ha Hxs; cbn [fold_left].
  - now apply not_negative_Fin.
  - inversion Hxs as [|? ? Hx Hxs']; subst. destruct x as [|q]; cbn [fadd].
    + now rewrite sum_from_nan.
    + apply IH; [|exact Hxs']. apply not_negative_Fin in Hx. lra.
Qed.

Lemma mean_not_negative xs :
  Forall (fun x => negative x = false) xs -> negative (mean xs) = false.
Proof.
  intros Hxs. unfold mean, sum.
  pose proof (sum_not_negative xs 0 ltac:(lra) Hxs) as Hs.
  destruct (fold_left fadd xs (Fin 0)) as [|s]; [reflexivity|].
  unfold of_nat, of_Z, fdiv.
  destruct (Qeq_bool (inject_Z (Z.of_nat (length xs))) 0) eqn:E; [reflexivity|].
  apply not_negative_Fin in Hs. apply not_negative_Fin.
  assert (Hn : (0 <= inject_Z (Z.of_nat (length xs)))%Q) by (rewrite <- (Zle_Qle 0); lia).
  apply not_true_iff_false in E. rewrite Qeq_bool_iff in E.
  apply Qle_shift_div_l; lra.
Qed.

Lemma square_not_negative x : negative (x * x)%py = false.
Proof.
  destruct x as [|q]; [reflexivity|]. cbn [fmul]. apply not_negative_Fin. nra.
Qed.

Lemma sum_zero xs : forall a,
  (a == 0)%Q -> Forall (fun x => feq x (Fin 0%Q) = true) xs ->
  exists s, fold_left fadd xs (Fin a) = Fin s /\ (s == 0)%Q.
Proof.
  induction xs as [|x xs IH]; intros a Ha Hxs; cbn [fold_left]; [eauto|].
  inversion Hxs as [|? ? Hx Hxs']; subst. destruct x as [|q]; [discriminate|].
  cbn in Hx. apply Qeq_bool_iff in Hx. cbn [fadd]. apply IH; [lra | exact Hxs'].
Qed.

Lemma mean_zero xs :
  xs <> [] -> Forall (fun x => feq x (Fin 0%Q) = true) xs ->
  feq (mean xs) (Fin 0%Q) = true.
Proof.
  intros Hne Hxs. unfold mean, sum.
  destruct (sum_zero xs 0 ltac:(lra) Hxs) as (s & -> & Hs).
  unfold of_nat, of_Z, fdiv.
  assert (Hn : (0 < inject_Z (Z.of_nat (length xs)))%Q).
  { rewrite <- (Zlt_Qlt 0). destruct xs; [congruence | cbn; lia]. }
  destruct (Qeq_bool (inject_Z (Z.of_nat (length xs))) 0) eqn:E.
  { apply Qeq_bool_iff in E. lra. }
  cbn. apply Qeq_bool_iff. rewrite Hs. field. lra.
Qed.

Lemma broadcast2_same_length f xs : forall ys,
  length xs = length ys ->
  broadcast2 f xs ys = OK (map (fun p => f (fst p) (snd p)) (combine xs ys)).
Proof.
  intros ys Hlen. unfold broadcast2.
  destruct xs as [|x [|x' xs]], ys as [|y [|y' ys]]; cbn in Hlen; try discriminate;
    try reflexivity.
  cbn [length]. rewrite Hlen, Nat.eqb_refl. reflexivity.
Qed.

Section ObjectiveProperties.

Variable power : float -> float -> float.

(** X22.  The mean squared error [objective] returns is never below zero;
    for two empty vectors it is nan. *)
Theorem objective_never_negative (params : float * float) (Zv Rv : list float) :
  (forall mse, objective power params Zv Rv = OK mse -> negative mse = false) /\
  objective power params [] [] = OK NaN.
Proof.
  split; [|destruct params; reflexivity].
  intros mse. unfold objective. destruct params as [a b].
  destruct (broadcast2 _ _ _) as [residuals|]; cbn [bind]; [|discriminate].
  intros [= <-]. apply mean_not_negative.
  apply Forall_forall. intros x Hx. apply in_map_iff in Hx as (r & <- & _).
  apply square_not_negative.
Qed.

(** X23.  On data that follow the power law exactly, [Z = a * R**b] entry
    by entry with every entry a number, [objective] returns a value that
    compares equal to zero. *)
Theorem objective_zero_on_exact_fit (a b : float) (Rv : list float) :
  Rv <> [] ->
  Forall (fun r => isnan (a * power r b)%py = false) Rv ->
  exists mse,
    objective power (a, b) (map (fun r => (a * power r b)%py) Rv) Rv = OK mse /\
    feq mse (Fin 0%Q) = true.
Proof.
  intros Hne Hfin. unfold objective.
  rewrite broadcast2_same_length by reflexivity. cbn [bind].
  eexists. split; [reflexivity|]. apply mean_zero.
  - destruct Rv; [congruence | discriminate].
  - apply Forall_forall. intros x Hx.
    apply in_map_iff in Hx as (d & <- & Hd). apply in_map_iff in Hd as ([z p] & <- & Hzp).
    apply in_combine_l in Hzp as Hz. apply in_map_iff in Hz as (r & Hr & HrIn).
    assert (z = p).
    { clear -Hzp. induction Rv as [|r0 rs IH]; cbn in Hzp; [contradiction|].
      destruct Hzp as [[= <- <-]|H]; auto. }
    subst p. cbn [fst snd]. rewrite Forall_forall in Hfin. specialize (Hfin r HrIn).
    rewrite Hr in Hfin. destruct z as [|q]; [discriminate|].
    cbn. apply Qeq_bool_iff. ring.
Qed.

End ObjectiveProperties.

Lemma objective_zero_on_exact_fit_witness :
  exists mse,
    objective (fun r b => r) (dec 300 1, dec 1 1)
      (map (fun r => (dec 300 1 * r)%py) [dec 1 2; dec 2 1; dec 5 1])
      [dec 1 2; dec 2 1; dec 5 1] = OK mse /\
    feq mse (Fin 0%Q) = true.
Proof.
  apply (objective_zero_on_exact_fit (fun r b => r) (dec 300 1) (dec 1 1)
           [dec 1 2; dec 2 1; dec 5 1]).
  - discriminate.
  - repeat constructor.
Defined.
